(** * HMAC-Project: the signing and verification core

    A shallow embedding of
      - [src/config/constants.js]     (the [SECURITY] settings),
      - [src/utils/hmacGenerator.js]  (class [SimpleHMAC]),
      - [src/utils/security.js]       ([createStringToSign]),
      - [src/middleware/hmacAuth.js]  (the Express middleware [hmacAuth]),
      - [src/client/apiClient.js]     ([generateAuthHeaders]),
      - [src/server.js]               (the route POST /api/create-hmac),
    together with the parts of the JavaScript and Node.js run time they call:
    [String.prototype.split], [parseInt], [JSON.stringify], [JSON.parse],
    [Buffer.from(_, "hex")], [crypto.timingSafeEqual], [Date] and, for the
    default algorithm, HMAC-SHA-256 itself.

    Conventions.
      - A JavaScript string is a Rocq [string] holding its UTF-8 bytes; the
        characters the code inspects (':', '.', digits, hex digits, JSON
        punctuation) are ASCII, so splitting and scanning agree with the
        UTF-16 view.  [toUpperCase] is modelled on ASCII letters, which is
        what an HTTP method consists of.
      - A JavaScript number is NaN, an integer or a finite decimal fraction,
        held exactly; the model agrees with binary64 arithmetic on safe
        integers and on decimals of at most 15 significant digits.
      - [Date.now()] is an explicit argument [now] (milliseconds).
      - An exception is a value of type [exn]; [try]/[catch] is a [match]. *)

From Stdlib Require Import ZArith List String Ascii Lia Bool DecimalString.
From Stdlib Require Import Init.Byte.
From Stdlib Require DecimalPos DecimalFacts.
From stdpp Require Import gmap strings.
Import ListNotations.
Local Set Warnings "-register-all".
#[local] Arguments String.append !s1 s2 : simpl nomatch.
Local Open Scope string_scope.
Local Open Scope Z_scope.

(* ================================================================== *)
(** * Strings                                                          *)
(* ================================================================== *)

Module Str.

Definition code (c : ascii) : Z := Z.of_N (N_of_ascii c).
Definition chr (n : Z) : ascii := ascii_of_N (Z.to_N n).

Definition of_list (l : list ascii) : string := string_of_list_ascii l.
Definition to_list (s : string) : list ascii := list_ascii_of_string s.

Fixpoint join (sep : string) (l : list string) : string :=
  match l with
  | [] => ""
  | [x] => x
  | x :: r => x ++ sep ++ join sep r
  end.

Fixpoint repeat0 (n : nat) : string :=
  match n with O => "" | S k => String "0" (repeat0 k) end.

(** [s.split(sep)] for a one-character separator: always at least one
    part, and an empty part on each side of a separator at the border. *)
Fixpoint split (sep : ascii) (s : string) : list string :=
  match s with
  | EmptyString => [EmptyString]
  | String c r =>
      if Ascii.eqb c sep then EmptyString :: split sep r
      else match split sep r with
           | p :: ps => String c p :: ps
           | [] => [String c EmptyString]
           end
  end.

(** [s] holds no occurrence of [c]. *)
Fixpoint lacks (c : ascii) (s : string) : bool :=
  match s with
  | EmptyString => true
  | String d r => negb (Ascii.eqb d c) && lacks c r
  end.

Definition is_lower (c : ascii) : bool := (97 <=? code c) && (code c <=? 122).

(** [s.toUpperCase()] on a string of ASCII characters: the letters a to z
    are mapped, every other byte is kept.  JavaScript also maps letters
    beyond ASCII, so what is said of upper-casing is said of ASCII
    strings. *)
Fixpoint toUpperCase (s : string) : string :=
  match s with
  | EmptyString => EmptyString
  | String c r => String (if is_lower c then chr (code c - 32) else c) (toUpperCase r)
  end.

(** Decimal digits of an integer, with a leading '-' when negative:
    [Number.prototype.toString] on an integer below 10^21. *)
Definition decimal (z : Z) : string := NilZero.string_of_int (Z.to_int z).

Definition digit_val (c : ascii) : option Z :=
  let n := code c in
  if (48 <=? n) && (n <=? 57) then Some (n - 48) else None.

(** Value of a hex digit, either case: [unhex] of Node's [HexDecode]. *)
Definition unhex (c : ascii) : option Z :=
  let n := code c in
  if (48 <=? n) && (n <=? 57) then Some (n - 48)
  else if (97 <=? n) && (n <=? 102) then Some (n - 87)
  else if (65 <=? n) && (n <=? 70) then Some (n - 55)
  else None.

(** The double-quote character, and [q s]: [s] with every apostrophe
    turned into a double quote, for writing JSON texts legibly. *)
Definition dquote : ascii := Eval cbv in chr 34.

Fixpoint q (s : string) : string :=
  match s with
  | EmptyString => EmptyString
  | String c r => String (if Ascii.eqb c "'" then dquote else c) (q r)
  end.

(** Lowercase hex digit of a nibble. *)
Definition hex_digit (n : Z) : ascii :=
  if n <? 10 then chr (48 + n) else chr (87 + n).

End Str.

(* ================================================================== *)
(** * Numbers                                                          *)
(* ================================================================== *)

(** [Frac m k] is m / 10^k with k > 0 and m not a multiple of ten. *)
Inductive number :=
| NaN
| Int (z : Z)
| Frac (m : Z) (k : positive).

Module Num.

Fixpoint trailing_zeros_rev (l : list ascii) : nat :=
  match l with
  | "0"%char :: r => S (trailing_zeros_rev r)
  | _ => O
  end.

Definition trailing_zeros (s : string) : nat :=
  trailing_zeros_rev (rev (Str.to_list s)).

Definition strip_zeros (s : string) : string :=
  String.substring 0 (String.length s - trailing_zeros s) s.

(** The number m * 10^e in canonical form. *)
Definition make (m e : Z) : number :=
  if m =? 0 then Int 0
  else if 0 <=? e then Int (m * 10 ^ e)
  else
    let t := Z.min (Z.of_nat (trailing_zeros (Str.decimal m))) (- e) in
    let m' := m / 10 ^ t in
    if e + t =? 0 then Int m' else Frac m' (Z.to_pos (- (e + t))).

(** Number::toString on the digits [ds] (no trailing zero) of a positive
    value 0.ds * 10^n. *)
Definition layout (ds : string) (n : Z) : string :=
  let k := Z.of_nat (String.length ds) in
  if (k <=? n) && (n <=? 21) then ds ++ Str.repeat0 (Z.to_nat (n - k))
  else if (0 <? n) && (n <=? 21) then
    String.substring 0 (Z.to_nat n) ds ++ "." ++
    String.substring (Z.to_nat n) (Z.to_nat (k - n)) ds
  else if (-6 <? n) && (n <=? 0) then
    "0." ++ Str.repeat0 (Z.to_nat (- n)) ++ ds
  else
    let e := n - 1 in
    let es := (if e <? 0 then "-" else "+") ++ Str.decimal (Z.abs e) in
    match ds with
    | EmptyString => EmptyString
    | String d EmptyString => String d ("e" ++ es)
    | String d r => String d ("." ++ r ++ "e" ++ es)
    end.

Definition toString (x : number) : string :=
  match x with
  | NaN => "NaN"
  | Int z =>
      if z =? 0 then "0"
      else
        let ds := Str.decimal (Z.abs z) in
        (if z <? 0 then "-" else "") ++
        layout (strip_zeros ds) (Z.of_nat (String.length ds))
  | Frac m k =>
      if m =? 0 then "0"
      else
        let ds := Str.decimal (Z.abs m) in
        (if m <? 0 then "-" else "") ++
        layout ds (Z.of_nat (String.length ds) - Z.pos k)
  end.

End Num.

(* ================================================================== *)
(** * JSON values, [JSON.stringify] and [JSON.parse]                   *)
(* ================================================================== *)

(** The values a message or a request body ranges over.  An object is the
    list of its own properties in enumeration order. *)
Inductive json :=
| JNull
| JBool (b : bool)
| JNum (n : number)
| JStr (s : string)
| JArr (items : list json)
| JObj (members : list (string * json)).

Module JSON.

(** ToBoolean, as used by [||] and [!]. *)
Definition truthy (v : json) : bool :=
  match v with
  | JNull => false
  | JBool b => b
  | JNum NaN => false
  | JNum (Int z) => negb (z =? 0)
  | JNum (Frac _ _) => true
  | JStr s => negb (String.eqb s "")
  | JArr _ | JObj _ => true
  end.

(** ** Serialization *)

Definition hex4 (n : Z) : string :=
  String (Str.hex_digit (n / 4096 mod 16))
    (String (Str.hex_digit (n / 256 mod 16))
       (String (Str.hex_digit (n / 16 mod 16))
          (String (Str.hex_digit (n mod 16)) ""))).

(** The escape of one byte in QuoteJSONString. *)
Definition quote_char (c : ascii) : string :=
  let n := Str.code c in
  if n =? 34 then String "\" (String Str.dquote "") else
  if n =? 92 then "\\" else
  if n =? 8 then "\b" else
  if n =? 9 then "\t" else
  if n =? 10 then "\n" else
  if n =? 12 then "\f" else
  if n =? 13 then "\r" else
  if n <? 32 then "\u" ++ hex4 n else String c "".

(** A lone surrogate (three bytes ED A0..BF xx in the byte view) is
    written as a \u escape; every other character goes through
    [quote_char]. *)
Fixpoint quote_body (s : string) : string :=
  match s with
  | EmptyString => EmptyString
  | String c r =>
      match r with
      | String c2 (String c3 r3) =>
          if (Str.code c =? 237) && (160 <=? Str.code c2) then
            "\u" ++ hex4 (53248 + (Str.code c2 mod 64) * 64 + Str.code c3 mod 64)
                 ++ quote_body r3
          else quote_char c ++ quote_body r
      | _ => quote_char c ++ quote_body r
      end
  end.

Definition quote (s : string) : string :=
  String Str.dquote (quote_body s ++ String Str.dquote "").

Fixpoint stringify (v : json) : string :=
  match v with
  | JNull => "null"
  | JBool true => "true"
  | JBool false => "false"
  | JNum NaN => "null"
  | JNum n => Num.toString n
  | JStr s => quote s
  | JArr items => "[" ++ Str.join "," (map stringify items) ++ "]"
  | JObj members =>
      "{" ++ Str.join ","
               (map (fun kv => quote (fst kv) ++ ":" ++ stringify (snd kv)) members)
          ++ "}"
  end.

(** ** Objects as [JSON.parse] builds them *)

Fixpoint all_digits (s : string) : bool :=
  match s with
  | EmptyString => true
  | String c r => match Str.digit_val c with Some _ => all_digits r | None => false end
  end.

Fixpoint digits_value (acc : Z) (s : string) : Z :=
  match s with
  | EmptyString => acc
  | String c r => digits_value (10 * acc + Str.code c - 48) r
  end.

(** An array index: the canonical decimal of an integer below 2^32 - 1.
    Such keys are enumerated first, in ascending order. *)
Definition array_index (k : string) : option Z :=
  match k with
  | EmptyString => None
  | String c r =>
      if all_digits k && (String.eqb k "0" || negb (Ascii.eqb c "0"))
         && (Nat.leb (String.length k) 10) && (digits_value 0 k <? 4294967295)
      then Some (digits_value 0 k) else None
  end.

Fixpoint replace (k : string) (v : json) (l : list (string * json))
  : option (list (string * json)) :=
  match l with
  | [] => None
  | (k', v') :: r =>
      if String.eqb k' k then Some ((k, v) :: r)
      else match replace k v r with
           | Some r' => Some ((k', v') :: r')
           | None => None
           end
  end.

Fixpoint insert_index (i : Z) (k : string) (v : json) (l : list (string * json))
  : list (string * json) :=
  match l with
  | [] => [(k, v)]
  | (k', v') :: r =>
      match array_index k' with
      | Some j => if j <? i then (k', v') :: insert_index i k v r else (k, v) :: l
      | None => (k, v) :: l
      end
  end.

(** [obj[k] = v]: an existing property keeps its place; a new array index
    goes among the indices, any other new key at the end. *)
Definition set (k : string) (v : json) (l : list (string * json))
  : list (string * json) :=
  match replace k v l with
  | Some l' => l'
  | None =>
      match array_index k with
      | Some i => insert_index i k v l
      | None => l ++ [(k, v)]
      end
  end.

(** ** Parsing

    [JSON.parse] as a pushdown recognizer that reads the text one
    character at a time: a mode (what may come next), and the stack of
    arrays and objects still open. *)

Inductive frame :=
| FArr (acc : list json)                               (* elements, last first *)
| FObj (members : list (string * json)) (key : option string).

Inductive strstate :=
| Plain
| Esc                         (* after a backslash *)
| Hex (n : nat) (v : Z).      (* in a \u escape, n digits read *)

Inductive numphase :=
| NSign | NZero | NInt | NDot | NFrac | NE | NESign | NExp.

Record numstate := {
  neg : bool; mant : Z; fracs : Z; eneg : bool; expo : Z; phase : numphase
}.

Inductive mode :=
| Value                                   (* a value must start *)
| ArrFirst                                (* after '[' *)
| ObjFirst                                (* after '{' *)
| Key                                     (* after ',' in an object *)
| Colon                                   (* after a key *)
| Next                                    (* after a value in a container *)
| Done (v : json)                         (* the whole value is read *)
| Lit (rest : list ascii) (v : json)      (* inside true, false or null *)
| InStr (iskey : bool) (acc : list (ascii + Z)) (st : strstate)
| InNum (n : numstate).

Definition state : Type := mode * list frame.

Definition is_ws (c : ascii) : bool :=
  let n := Str.code c in (n =? 32) || (n =? 9) || (n =? 10) || (n =? 13).

(** UTF-8 of a code point (generalized to lone surrogates). *)
Definition utf8 (cp : Z) : list ascii :=
  if cp <? 128 then [Str.chr cp]
  else if cp <? 2048 then [Str.chr (192 + cp / 64); Str.chr (128 + cp mod 64)]
  else if cp <? 65536 then
    [Str.chr (224 + cp / 4096); Str.chr (128 + cp / 64 mod 64);
     Str.chr (128 + cp mod 64)]
  else
    [Str.chr (240 + cp / 262144); Str.chr (128 + cp / 4096 mod 64);
     Str.chr (128 + cp / 64 mod 64); Str.chr (128 + cp mod 64)].

Definition is_high (u : Z) : bool := (55296 <=? u) && (u <? 56320).
Definition is_low (u : Z) : bool := (56320 <=? u) && (u <? 57344).

(** The bytes of a string literal's content: raw bytes as they are, \u
    escapes as UTF-8, a high surrogate directly followed by a low one as
    the code point they encode. *)
Fixpoint encode (l : list (ascii + Z)) : list ascii :=
  match l with
  | [] => []
  | inl c :: r => c :: encode r
  | inr hi :: r =>
      match r with
      | inr lo :: r' =>
          if is_high hi && is_low lo
          then utf8 (65536 + (hi - 55296) * 1024 + (lo - 56320)) ++ encode r'
          else utf8 hi ++ encode r
      | _ => utf8 hi ++ encode r
      end
  end.

(** A finished value goes to the enclosing array or object. *)
Definition complete (v : json) (stack : list frame) : option state :=
  match stack with
  | [] => Some (Done v, [])
  | FArr acc :: st => Some (Next, FArr (v :: acc) :: st)
  | FObj ms (Some k) :: st => Some (Next, FObj (set k v ms) None :: st)
  | FObj _ None :: _ => None
  end.

Definition num0 (ng : bool) (m : Z) (p : numphase) : numstate :=
  {| neg := ng; mant := m; fracs := 0; eneg := false; expo := 0; phase := p |}.

Definition value_start (c : ascii) (stack : list frame) : option state :=
  let n := Str.code c in
  if n =? 34 then Some (InStr false [] Plain, stack)
  else if n =? 91 then Some (ArrFirst, FArr [] :: stack)
  else if n =? 123 then Some (ObjFirst, FObj [] None :: stack)
  else if n =? 116 then Some (Lit (Str.to_list "rue") (JBool true), stack)
  else if n =? 102 then Some (Lit (Str.to_list "alse") (JBool false), stack)
  else if n =? 110 then Some (Lit (Str.to_list "ull") JNull, stack)
  else if n =? 45 then Some (InNum (num0 true 0 NSign), stack)
  else if n =? 48 then Some (InNum (num0 false 0 NZero), stack)
  else match Str.digit_val c with
       | Some d => Some (InNum (num0 false d NInt), stack)
       | None => None
       end.

Definition escape_char (c : ascii) : option Z :=
  let n := Str.code c in
  if (n =? 34) || (n =? 92) || (n =? 47) then Some n
  else if n =? 98 then Some 8
  else if n =? 102 then Some 12
  else if n =? 110 then Some 10
  else if n =? 114 then Some 13
  else if n =? 116 then Some 9
  else None.

Definition string_step (iskey : bool) (acc : list (ascii + Z)) (st : strstate)
           (c : ascii) (stack : list frame) : option state :=
  let n := Str.code c in
  match st with
  | Plain =>
      if n =? 34 then
        let s := Str.of_list (encode (rev acc)) in
        if iskey then
          match stack with
          | FObj ms None :: rest => Some (Colon, FObj ms (Some s) :: rest)
          | _ => None
          end
        else complete (JStr s) stack
      else if n =? 92 then Some (InStr iskey acc Esc, stack)
      else if n <? 32 then None
      else Some (InStr iskey (inl c :: acc) Plain, stack)
  | Esc =>
      if n =? 117 then Some (InStr iskey acc (Hex 0 0), stack)
      else match escape_char c with
           | Some e => Some (InStr iskey (inl (Str.chr e) :: acc) Plain, stack)
           | None => None
           end
  | Hex k v =>
      match Str.unhex c with
      | Some d =>
          if Nat.eqb k 3 then Some (InStr iskey (inr (16 * v + d) :: acc) Plain, stack)
          else Some (InStr iskey acc (Hex (S k) (16 * v + d)), stack)
      | None => None
      end
  end.

Definition with_phase (s : numstate) (p : numphase) : numstate :=
  {| neg := neg s; mant := mant s; fracs := fracs s;
     eneg := eneg s; expo := expo s; phase := p |}.

(** One more character of a number, or [None] when [c] does not continue it. *)
Definition num_step (s : numstate) (c : ascii) : option numstate :=
  let n := Str.code c in
  let is_e := (n =? 101) || (n =? 69) in
  match phase s, Str.digit_val c with
  | NSign, Some d => Some (num0 true d (if d =? 0 then NZero else NInt))
  | NInt, Some d =>
      Some {| neg := neg s; mant := 10 * mant s + d; fracs := 0;
              eneg := false; expo := 0; phase := NInt |}
  | (NDot | NFrac), Some d =>
      Some {| neg := neg s; mant := 10 * mant s + d; fracs := fracs s + 1;
              eneg := false; expo := 0; phase := NFrac |}
  | (NE | NESign | NExp), Some d =>
      Some {| neg := neg s; mant := mant s; fracs := fracs s;
              eneg := eneg s; expo := 10 * expo s + d; phase := NExp |}
  | (NZero | NInt), None =>
      if n =? 46 then Some (with_phase s NDot)
      else if is_e then Some (with_phase s NE) else None
  | NFrac, None => if is_e then Some (with_phase s NE) else None
  | NE, None =>
      if n =? 43 then Some (with_phase s NESign)
      else if n =? 45 then
        Some {| neg := neg s; mant := mant s; fracs := fracs s;
                eneg := true; expo := 0; phase := NESign |}
      else None
  | _, _ => None
  end.

(** The value of a complete number, [None] when it stops half way.  The
    value is held exactly; it is the number JavaScript reads when it is a
    safe integer, beyond which JavaScript rounds to binary64. *)
Definition num_value (s : numstate) : option number :=
  match phase s with
  | NZero | NInt | NFrac | NExp =>
      Some (Num.make (if neg s then - mant s else mant s)
                     ((if eneg s then - expo s else expo s) - fracs s))
  | _ => None
  end.

(** A step in any mode but [InNum]. *)
Definition step_plain (st : state) (c : ascii) : option state :=
  let '(m, stack) := st in
  let n := Str.code c in
  match m with
  | Value => if is_ws c then Some st else value_start c stack
  | ArrFirst =>
      if is_ws c then Some st
      else if n =? 93 then
        match stack with
        | FArr _ :: rest => complete (JArr []) rest
        | _ => None
        end
      else value_start c stack
  | ObjFirst =>
      if is_ws c then Some st
      else if n =? 125 then
        match stack with
        | FObj _ None :: rest => complete (JObj []) rest
        | _ => None
        end
      else if n =? 34 then Some (InStr true [] Plain, stack)
      else None
  | Key =>
      if is_ws c then Some st
      else if n =? 34 then Some (InStr true [] Plain, stack)
      else None
  | Colon =>
      if is_ws c then Some st
      else if n =? 58 then Some (Value, stack)
      else None
  | Next =>
      if is_ws c then Some st
      else match stack with
           | FArr acc :: rest =>
               if n =? 44 then Some (Value, stack)
               else if n =? 93 then complete (JArr (rev acc)) rest
               else None
           | FObj ms None :: rest =>
               if n =? 44 then Some (Key, stack)
               else if n =? 125 then complete (JObj ms) rest
               else None
           | _ => None
           end
  | Done _ => if is_ws c then Some st else None
  | Lit rest v =>
      match rest with
      | x :: rest' =>
          if Ascii.eqb c x then
            match rest' with
            | [] => complete v stack
            | _ => Some (Lit rest' v, stack)
            end
          else None
      | [] => None
      end
  | InStr iskey acc s => string_step iskey acc s c stack
  | InNum _ => None
  end.

Definition step (st : state) (c : ascii) : option state :=
  match st with
  | (InNum s, stack) =>
      match num_step s c with
      | Some s' => Some (InNum s', stack)
      | None =>
          match num_value s with
          | Some x =>
              match complete (JNum x) stack with
              | Some st' => step_plain st' c
              | None => None
              end
          | None => None
          end
      end
  | _ => step_plain st c
  end.

Definition finish (st : state) : option json :=
  match st with
  | (Done v, []) => Some v
  | (InNum s, []) =>
      match num_value s with
      | Some x => Some (JNum x)
      | None => None
      end
  | _ => None
  end.

Fixpoint run (st : state) (text : string) : option json :=
  match text with
  | EmptyString => finish st
  | String c r =>
      match step st c with
      | Some st' => run st' r
      | None => None
      end
  end.

(** [JSON.parse(text)]: [None] stands for the SyntaxError it throws. *)
Definition parse (text : string) : option json := run (Value, []) text.

End JSON.

(* ================================================================== *)
(** * Run-time library: [parseInt], [Buffer], [crypto.timingSafeEqual]  *)
(* ================================================================== *)

Inductive exn :=
| RangeError (message : string)
| SyntaxError (message : string).

(** ToString of a value that is a string or [undefined]. *)
Definition ToString (x : option string) : string :=
  match x with
  | Some s => s
  | None => "undefined"
  end.

Module Global.

Definition ws1 (c : ascii) : bool :=
  let n := Str.code c in ((9 <=? n) && (n <=? 13)) || (n =? 32).

(** White space of three bytes: U+1680, U+2000..U+200A, U+2028, U+2029,
    U+202F, U+205F, U+3000 and U+FEFF. *)
Definition ws3 (a b c : ascii) : bool :=
  let '(x, y, z) := (Str.code a, Str.code b, Str.code c) in
  ((x =? 225) && (y =? 154) && (z =? 128))
  || ((x =? 226) && (y =? 128)
      && (((128 <=? z) && (z <=? 138)) || (z =? 168) || (z =? 169) || (z =? 175)))
  || ((x =? 226) && (y =? 129) && (z =? 159))
  || ((x =? 227) && (y =? 128) && (z =? 128))
  || ((x =? 239) && (y =? 187) && (z =? 191)).

(** Leading white space and line terminators removed. *)
Fixpoint trim_start (s : string) : string :=
  match s with
  | EmptyString => s
  | String a r =>
      if ws1 a then trim_start r
      else match r with
           | String b r2 =>
               if (Str.code a =? 194) && (Str.code b =? 160) then trim_start r2
               else match r2 with
                    | String c r3 => if ws3 a b c then trim_start r3 else s
                    | EmptyString => s
                    end
           | EmptyString => s
           end
  end.

(** The value of the longest prefix of digits in radix [R]; [None] when
    there is no digit at all. *)
Fixpoint digits (R : Z) (acc : option Z) (s : string) : option Z :=
  match s with
  | EmptyString => acc
  | String c r =>
      match Str.unhex c with
      | Some d =>
          if d <? R then digits R (Some (R * default 0 acc + d)) r else acc
      | None => acc
      end
  end.

(** [parseInt(s)] with no radix: [None] is NaN.  The integer read is held
    exactly; it is the number JavaScript returns when it is a safe integer
    (below 2^53 in magnitude), beyond which JavaScript rounds to
    binary64. *)
Definition parseInt (s : string) : option Z :=
  let s0 := trim_start s in
  let '(sign, s1) :=
    match s0 with
    | String "-" r => (-1, r)
    | String "+" r => (1, r)
    | _ => (1, s0)
    end in
  let '(R, s2) :=
    match s1 with
    | String "0" (String "x" r) | String "0" (String "X" r) => (16, r)
    | _ => (10, s1)
    end in
  match digits R None s2 with
  | Some v => Some (sign * v)
  | None => None
  end.

(** [a > b] on numbers: false when [a] is NaN. *)
Definition gt (a : option Z) (b : Z) : bool :=
  match a with
  | Some x => b <? x
  | None => false
  end.

Definition number_of (a : option Z) : number :=
  match a with
  | Some x => Int x
  | None => NaN
  end.

(** [new Date(t).toISOString()] raises a RangeError when [t] is not a
    time value, that is beyond 8.64e15 ms on either side of the epoch
    (or NaN).  The text it returns otherwise is not modelled. *)
Definition toISOString (t : option Z) : exn + unit :=
  match t with
  | Some x =>
      if Z.abs x <=? 8640000000000000 then inr tt
      else inl (RangeError "Invalid time value")
  | None => inl (RangeError "Invalid time value")
  end.

End Global.

Module Buffer.

Definition byte_of (n : Z) : byte := byte_of_ascii (Str.chr n).
Definition value (b : byte) : Z := Str.code (ascii_of_byte b).

(** [buf.toString("hex")], which is also [hmac.digest("hex")]. *)
Fixpoint toHex (bs : list byte) : string :=
  match bs with
  | [] => EmptyString
  | b :: r =>
      String (Str.hex_digit (value b / 16))
        (String (Str.hex_digit (value b mod 16)) (toHex r))
  end.

(** [Buffer.from(s, "hex")]: pairs of hex digits are decoded up to the
    first pair that is not one; a trailing single digit is dropped.  The
    scan is over the bytes of [s], which gives what Node gives on a string
    of ASCII or Latin-1 characters (an HTTP header value); Node scans
    UTF-16 units by their low byte, so a character above U+00FF can decode
    otherwise. *)
Fixpoint fromHex (s : string) : list byte :=
  match s with
  | String a (String b r) =>
      match Str.unhex a, Str.unhex b with
      | Some x, Some y => byte_of (16 * x + y) :: fromHex r
      | _, _ => []
      end
  | _ => []
  end.

(** OpenSSL's CRYPTO_memcmp on buffers of one length: the OR of the XOR
    of every pair of bytes, with no early exit. *)
Definition memcmp (a b : list byte) : Z :=
  fold_left (fun acc xy => Z.lor acc (Z.lxor (value (fst xy)) (value (snd xy))))
            (combine a b) 0.

(** [crypto.timingSafeEqual(a, b)]. *)
Definition timingSafeEqual (a b : list byte) : exn + bool :=
  if Nat.eqb (length a) (length b) then inr (memcmp a b =? 0)
  else inl (RangeError "Input buffers must have the same byte length").

End Buffer.

(* ================================================================== *)
(** * src/config/constants.js                                          *)
(* ================================================================== *)

Module SECURITY.
Definition MIN_SECRET_LENGTH : Z := 32.
Definition MAX_TOKEN_AGE : Z := 5 * 60 * 1000.
Definition TIMESTAMP_HEADER : string := "x-timestamp".
Definition SIGNATURE_HEADER : string := "x-signature".
Definition API_KEY_HEADER : string := "x-api-key".
End SECURITY.

(* ================================================================== *)
(** * src/utils/security.js                                            *)
(* ================================================================== *)

(** [body || {}]; [None] is an absent ([undefined]) body. *)
Definition body_or_empty (body : option json) : json :=
  match body with
  | Some b => if JSON.truthy b then b else JObj []
  | None => JObj []
  end.

Definition createStringToSign (method path : string) (body : option json)
           (timestamp : string) : string :=
  timestamp ++ "." ++ Str.toUpperCase method ++ "." ++ path ++ "."
            ++ JSON.stringify (body_or_empty body).

(* ================================================================== *)
(** * src/utils/hmacGenerator.js and src/middleware/hmacAuth.js        *)
(* ================================================================== *)

(** An instance of the class: its secret.  The algorithm it was built with
    (sha256 unless told otherwise) is the keyed hash [hmac_raw] the methods
    below take. *)
Record SimpleHMAC := { secret : string }.

(** What [createWithTimestamp] returns. *)

Record TimestampToken := {
  hmac : string;
  timestamp : Z;
  data : json;
  fullToken : string
}.

(** What [verifyWithTimestamp] returns, one constructor for each of the
    three object shapes it builds. *)
Inductive VerifyResult :=
| Expired (age : option Z) (maxAge : Z)
| Checked (valid : bool) (message : json) (age : option Z)
| Malformed (detail : string).

Definition isValid (r : VerifyResult) : bool :=
  match r with
  | Checked v _ _ => v
  | _ => false
  end.

Definition reason (r : VerifyResult) : string :=
  match r with
  | Expired _ _ => "Token expired"
  | Checked true _ _ => "Valid token"
  | Checked false _ _ => "Invalid HMAC"
  | Malformed detail => "Invalid token format: " ++ detail
  end.

(** The [data] property: [None] when the object has none. *)
Definition result_data (r : VerifyResult) : option json :=
  match r with
  | Checked true m _ => Some m
  | Checked false _ _ => Some JNull
  | _ => None
  end.

Record Request := {
  method : string;
  path : string;
  body : option json;
  headers : gmap string string
}.

(** What the middleware does with a request: it calls [next()], or ends
    the request with [res.status(status).json({error, ...})]. *)
Inductive Response :=
| CallNext
| Reply (status : Z) (error : string).

(** [!x] for a value that is a string or [undefined]. *)
Definition falsy (x : option string) : bool :=
  match x with
  | Some s => String.eqb s ""
  | None => true
  end.

(** The constructor: the secret comes from the argument or else from the
    environment variable HMAC_SECRET; without either it throws.  A secret
    shorter than MIN_SECRET_LENGTH only draws a warning. *)
Definition new_SimpleHMAC (secret env_secret : option string) : option SimpleHMAC :=
  if negb (falsy secret) then Some {| secret := ToString secret |}
  else if negb (falsy env_secret) then Some {| secret := ToString env_secret |}
  else None.

Section Generator.

(** [crypto.createHmac(this.algorithm, key).update(data).digest()], the
    keyed hash of the algorithm the instance was built with. *)
Variable hmac_raw : string -> string -> list byte.

(** The message of the SyntaxError [JSON.parse] throws on a text. *)
Variable syntax_error_message : string -> string.

Definition create (h : SimpleHMAC) (message : json) : string :=
  let data :=
    match message with
    | JStr s => s
    | _ => JSON.stringify message
    end in
  Buffer.toHex (hmac_raw (secret h) data).

Definition verify (h : SimpleHMAC) (message : json) (receivedHmac : string) : bool :=
  let calculatedHmac := create h message in
  match Buffer.timingSafeEqual (Buffer.fromHex calculatedHmac)
                               (Buffer.fromHex receivedHmac) with
  | inr b => b
  | inl _ => false
  end.

Definition createWithTimestamp (h : SimpleHMAC) (now : Z) (message : json)
  : TimestampToken :=
  let timestamp := now in
  let dataToSign := JObj [("message", message); ("timestamp", JNum (Int timestamp))] in
  let hmac := create h (JStr (JSON.stringify dataToSign)) in
  {| hmac := hmac;
     timestamp := timestamp;
     data := message;
     fullToken := hmac ++ ":" ++ Num.toString (Int timestamp) ++ ":"
                       ++ JSON.stringify message |}.

(** The age of a token whose timestamp does not parse is NaN ([None]).
    The timestamp and the numbers of the message are those [Global.parseInt]
    and [JSON.parse] give, JavaScript's when they are safe integers. *)
Definition verifyWithTimestamp (h : SimpleHMAC) (now : Z) (fullToken : string)
  : VerifyResult :=
  let parts := Str.split ":" fullToken in
  let receivedHmac := ToString (parts !! 0%nat) in
  let timestampStr := ToString (parts !! 1%nat) in
  let messageStr := ToString (parts !! 2%nat) in
  let timestamp := Global.parseInt timestampStr in
  match JSON.parse messageStr with
  | None => Malformed (syntax_error_message messageStr)
  | Some message =>
      let tokenAge := option_map (fun t => now - t) timestamp in
      let maxAge := SECURITY.MAX_TOKEN_AGE in
      if Global.gt tokenAge maxAge then Expired tokenAge maxAge
      else
        let originalData :=
          JObj [("message", message);
                ("timestamp", JNum (Global.number_of timestamp))] in
        let isValid := verify h (JStr (JSON.stringify originalData)) receivedHmac in
        Checked isValid message tokenAge
  end.

Definition hmacAuth (h : SimpleHMAC) (now : Z) (req : Request) : Response :=
  let timestamp := headers req !! SECURITY.TIMESTAMP_HEADER in
  let signature := headers req !! SECURITY.SIGNATURE_HEADER in
  if falsy timestamp || falsy signature then
    Reply 401 "Missing authentication headers"
  else
    let requestTime := Global.parseInt (ToString timestamp) in
    let timeDiff := option_map (fun t => Z.abs (now - t)) requestTime in
    if Global.gt timeDiff SECURITY.MAX_TOKEN_AGE then
      match Global.toISOString requestTime, Global.toISOString (Some now) with
      | inr _, inr _ => Reply 401 "Request expired"
      | _, _ => Reply 500 "Authentication error"
      end
    else
      let stringToSign :=
        createStringToSign (method req) (path req) (body req) (ToString timestamp) in
      if verify h (JStr stringToSign) (ToString signature) then CallNext
      else Reply 401 "Invalid signature".

End Generator.

(** Both authentication headers are there and neither is empty. *)
Definition has_auth_headers (req : Request) (ts sig : string) : Prop :=
  headers req !! SECURITY.TIMESTAMP_HEADER = Some ts /\ ts <> "" /\
  headers req !! SECURITY.SIGNATURE_HEADER = Some sig /\ sig <> "".

(** The last step of the middleware on its own: the signature check. *)
Definition signature_check (hmac_raw : string -> string -> list byte)
           (h : SimpleHMAC) (req : Request) (ts sig : string) : Response :=
  if verify hmac_raw h
            (JStr (createStringToSign (method req) (path req) (body req) ts)) sig
  then CallNext else Reply 401 "Invalid signature".

(* ================================================================== *)
(** * The rest of src/utils/security.js, the constructor's warning and
      the client's [generateAuthHeaders]                               *)
(* ================================================================== *)

(** [crypto.randomBytes(size)] is given as the bytes it draws;
    [generateSecret(length = 32)] writes them in hex.  A size above
    2^31 - 1 makes [randomBytes] throw ([None]). *)
Definition generateSecret (randomBytes : nat -> list byte) (length : option nat)
  : option string :=
  let size := default 32%nat length in
  if Z.of_nat size <=? 2147483647 then Some (Buffer.toHex (randomBytes size))
  else None.

(** [validateMessage(message)]: [None] is the Error it throws on [null]
    and on [undefined] (an absent message). *)
Definition validateMessage (message : option json) : option bool :=
  match message with
  | None | Some JNull => None
  | Some _ => Some true
  end.

(** [getTimestamp()]: [Date.now().toString()]. *)
Definition getTimestamp (now : Z) : string := Num.toString (Int now).

(** The test of the constructor that draws the warning
    "Secret is shorter than 32 characters". *)
Definition warns_short_secret (h : SimpleHMAC) : bool :=
  Z.of_nat (String.length (secret h)) <? SECURITY.MIN_SECRET_LENGTH.

(** [APIClient.generateAuthHeaders(method, path, data = {})]: the two
    headers of a signed request. *)
Definition generateAuthHeaders (hmac_raw : string -> string -> list byte)
           (h : SimpleHMAC) (now : Z) (method path : string) (data : option json)
  : gmap string string :=
  let data := default (JObj []) data in
  let timestamp := getTimestamp now in
  let stringToSign := createStringToSign method path (Some data) timestamp in
  let signature := create hmac_raw h (JStr stringToSign) in
  <[ SECURITY.SIGNATURE_HEADER := signature ]>
    (<[ SECURITY.TIMESTAMP_HEADER := timestamp ]> ∅).

(** ** Predicates the properties below are stated with *)

(** Messages that come back from [JSON.parse (JSON.stringify _)] as they
    are and can be written without an object key: null, booleans, safe
    integers (below 2^53 in magnitude), ASCII strings, arrays of these,
    and the empty object. *)
Fixpoint plain (v : json) : bool :=
  match v with
  | JNull | JBool _ => true
  | JNum (Int z) => Z.abs z <? 9007199254740992
  | JNum _ => false
  | JStr s => forallb (fun c => Str.code c <? 128) (Str.to_list s)
  | JArr items => forallb plain items
  | JObj members => match members with [] => true | _ :: _ => false end
  end.

(** A digest as [digest("hex")] writes it: pairs of lowercase hex digits. *)
Definition is_hex_lower (c : ascii) : bool :=
  let n := Str.code c in
  ((48 <=? n) && (n <=? 57)) || ((97 <=? n) && (n <=? 102)).

Fixpoint canonical_hex (s : string) : bool :=
  match s with
  | EmptyString => true
  | String a (String b r) => is_hex_lower a && is_hex_lower b && canonical_hex r
  | String _ EmptyString => false
  end.

(** A string of ASCII characters: its bytes are its UTF-16 units, and
    upper-casing it touches the letters a to z only. *)
Definition ascii_only (s : string) : bool :=
  forallb (fun c => Str.code c <? 128) (Str.to_list s).

(** A safe integer: binary64 holds it exactly. *)
Definition safe_integer (z : Z) : bool := Z.abs z <? 9007199254740992.

(** Values whose numbers are all safe integers. *)
Fixpoint safe_numbers (v : json) : bool :=
  match v with
  | JNull | JBool _ | JStr _ => true
  | JNum (Int z) => safe_integer z
  | JNum _ => false
  | JArr items => forallb safe_numbers items
  | JObj members => forallb (fun kv => safe_numbers (snd kv)) members
  end.

(* ================================================================== *)
(** * The default algorithm: HMAC-SHA-256 (FIPS 180-4, RFC 2104)       *)
(* ================================================================== *)

Module SHA256.

Definition mask : Z := 2 ^ 32 - 1.
Definition add (x y : Z) : Z := Z.land (x + y) mask.
Definition rotr (n x : Z) : Z :=
  Z.lor (Z.shiftr x n) (Z.land (Z.shiftl x (32 - n)) mask).

Definition Ch (x y z : Z) : Z :=
  Z.lxor (Z.land x y) (Z.land (Z.lxor x mask) z).
Definition Maj (x y z : Z) : Z :=
  Z.lxor (Z.lxor (Z.land x y) (Z.land x z)) (Z.land y z).
Definition Sum0 (x : Z) : Z := Z.lxor (Z.lxor (rotr 2 x) (rotr 13 x)) (rotr 22 x).
Definition Sum1 (x : Z) : Z := Z.lxor (Z.lxor (rotr 6 x) (rotr 11 x)) (rotr 25 x).
Definition sig0 (x : Z) : Z := Z.lxor (Z.lxor (rotr 7 x) (rotr 18 x)) (Z.shiftr x 3).
Definition sig1 (x : Z) : Z := Z.lxor (Z.lxor (rotr 17 x) (rotr 19 x)) (Z.shiftr x 10).

(** The constants are the leading 32 bits of the fractional parts of the
    square roots (initial hash) and cube roots (round constants) of the
    first primes. *)
Fixpoint sieve (fuel : nat) (n : Z) (found : list Z) : list Z :=
  match fuel with
  | O => rev found
  | S f =>
      if forallb (fun p => negb (n mod p =? 0)) found
      then sieve f (n + 1) (n :: found)
      else sieve f (n + 1) found
  end.

Definition primes : list Z := Eval vm_compute in sieve 310 2 [].

Fixpoint cbrt_bits (bit : nat) (n r : Z) : Z :=
  match bit with
  | O => r
  | S b =>
      let r' := r + 2 ^ Z.of_nat b in
      cbrt_bits b n (if r' * r' * r' <=? n then r' else r)
  end.

Definition K : list Z :=
  Eval vm_compute in map (fun p => Z.land (cbrt_bits 40 (p * 2 ^ 96) 0) mask) primes.

Definition H0 : list Z :=
  Eval vm_compute in map (fun p => Z.land (Z.sqrt (p * 2 ^ 64)) mask) (firstn 8 primes).

Definition be32 (x : Z) : list Z :=
  [Z.shiftr x 24 mod 256; Z.shiftr x 16 mod 256; Z.shiftr x 8 mod 256; x mod 256].

(** The message, a 1 bit, zeros up to 56 modulo 64 bytes, and the length
    in bits on 64 bits. *)
Definition pad (msg : list Z) : list Z :=
  let len := Z.of_nat (length msg) in
  let zeros := Z.to_nat ((55 - len) mod 64) in
  msg ++ [128] ++ repeat 0 zeros ++ be32 (Z.shiftr (8 * len) 32) ++ be32 (Z.land (8 * len) mask).

Fixpoint words (bytes : list Z) : list Z :=
  match bytes with
  | a :: b :: c :: d :: r => (a * 16777216 + b * 65536 + c * 256 + d) :: words r
  | _ => []
  end.

(** The message schedule, last word first: [sched] holds W(t-1) .. W(0). *)
Fixpoint schedule (n : nat) (sched : list Z) : list Z :=
  match n with
  | O => sched
  | S k =>
      let w := add (add (sig1 (nth 1 sched 0)) (nth 6 sched 0))
                   (add (sig0 (nth 14 sched 0)) (nth 15 sched 0)) in
      schedule k (w :: sched)
  end.

Definition round (st : list Z) (kw : Z * Z) : list Z :=
  match st with
  | [a; b; c; d; e; f; g; h] =>
      let t1 := add (add (add h (Sum1 e)) (add (Ch e f g) (fst kw))) (snd kw) in
      let t2 := add (Sum0 a) (Maj a b c) in
      [add t1 t2; a; b; c; add d t1; e; f; g]
  | _ => st
  end.

Definition compress (hash : list Z) (block : list Z) : list Z :=
  let W := rev (schedule 48 (rev block)) in
  let st := fold_left round (combine K W) hash in
  map (fun xy => add (fst xy) (snd xy)) (combine hash st).

Fixpoint blocks (fuel : nat) (ws : list Z) : list (list Z) :=
  match fuel, ws with
  | S f, _ :: _ => firstn 16 ws :: blocks f (skipn 16 ws)
  | _, _ => []
  end.

Definition digest (msg : list Z) : list Z :=
  let ws := words (pad msg) in
  flat_map be32 (fold_left compress (blocks (length ws) ws) H0).

End SHA256.

Module NodeCrypto.

(** The well-formed UTF-8 a string is hashed as: a lone surrogate
    becomes U+FFFD. *)
Fixpoint utf8_bytes (s : string) : list Z :=
  match s with
  | EmptyString => []
  | String c r =>
      match r with
      | String c2 (String c3 r3) =>
          if (Str.code c =? 237) && (160 <=? Str.code c2)
          then 239 :: 191 :: 189 :: utf8_bytes r3
          else Str.code c :: utf8_bytes r
      | _ => Str.code c :: utf8_bytes r
      end
  end.

Definition xor_pad (x : Z) (key : list Z) : list Z :=
  map (Z.lxor x) (key ++ repeat 0 (64 - length key)).

Definition hmac_sha256_bytes (key msg : list Z) : list Z :=
  let key' := if Nat.ltb 64 (length key) then SHA256.digest key else key in
  SHA256.digest (xor_pad 92 key' ++ SHA256.digest (xor_pad 54 key' ++ msg)).

(** [crypto.createHmac("sha256", key).update(data).digest()]. *)
Definition hmac_sha256 (key data : string) : list byte :=
  map Buffer.byte_of (hmac_sha256_bytes (utf8_bytes key) (utf8_bytes data)).

(** V8 words its SyntaxError messages after the offending token; only
    the fact that there is one is kept. *)
Definition syntax_error_message (text : string) : string :=
  "Unexpected token in JSON".

End NodeCrypto.

(* ================================================================== *)
(** * The canonical string as the specification words it               *)
(* ================================================================== *)

(** "[body] absent/null is treated as an empty mapping before
    serialization": every other body is serialized as it is. *)
Definition specified_body (body : option json) : json :=
  match body with
  | None | Some JNull => JObj []
  | Some b => b
  end.

(** "{timestamp}.{UPPERCASE method}.{path}.{json(body or {})}". *)
Definition specified_stringToSign (method path : string) (body : option json)
           (timestamp : string) : string :=
  timestamp ++ "." ++ Str.toUpperCase method ++ "." ++ path ++ "."
            ++ JSON.stringify (specified_body body).

(** The bodies JavaScript takes for false: an absent one, null, false, 0,
    NaN and the empty string. *)
Definition falsy_body (body : option json) : bool :=
  match body with
  | None => true
  | Some JNull | Some (JBool false) | Some (JNum NaN) | Some (JNum (Int 0)) => true
  | Some (JStr EmptyString) => true
  | Some _ => false
  end.

(** ** Notions the proofs about [JSON.parse] are stated with *)

(** What [JSON.parse] does with the rest of the text once a value is read
    and handed to the array or object around it. *)
Definition after (v : json) (stack : list JSON.frame) (rest : string) : option json :=
  match JSON.complete v stack with
  | Some st => JSON.run st rest
  | None => None
  end.

(** A text that cannot continue a number: it is empty, or starts with a
    character that is neither a digit, nor a dot, nor an exponent mark. *)
Definition number_end (rest : string) : bool :=
  match rest with
  | EmptyString => true
  | String c _ =>
      match Str.digit_val c with
      | Some _ => false
      | None => negb ((Str.code c =? 46) || (Str.code c =? 101) || (Str.code c =? 69))
      end
  end.

(** What the parser keeps of one character of a string once it has read
    the escape [JSON.quote_char] wrote for it. *)
Definition item_of (c : ascii) : ascii + Z :=
  let n := Str.code c in
  if (n <? 32) && negb ((n =? 8) || (n =? 9) || (n =? 10) || (n =? 12) || (n =? 13))
  then inr n else inl c.

Definition item_char (x : ascii + Z) : ascii :=
  match x with
  | inl c => c
  | inr n => Str.chr n
  end.

Definition low_item (x : ascii + Z) : bool :=
  match x with
  | inl _ => true
  | inr n => (0 <=? n) && (n <? 128)
  end.

(** The text of an array after its first element. *)
Fixpoint elems_tail (l : list json) (rest : string) : string :=
  match l with
  | [] => String "]" rest
  | v :: r => String "," (JSON.stringify v ++ elems_tail r rest)
  end.

(** From a place where a value may start, reading the text of [v] amounts
    to completing [v]. *)
Definition reads_back (v : json) : Prop :=
  forall m stack rest,
    m = JSON.Value \/ m = JSON.ArrFirst ->
    number_end rest = true ->
    JSON.run (m, stack) (JSON.stringify v ++ rest) = after v stack rest.

(** What the decimal form of a positive integer looks like: a first digit
    that is not zero, then digits. *)
Inductive leading : Decimal.uint -> ascii -> positive -> Decimal.uint -> Prop :=
| Lead1 l : leading (Decimal.D1 l) "1" 1 l
| Lead2 l : leading (Decimal.D2 l) "2" 2 l
| Lead3 l : leading (Decimal.D3 l) "3" 3 l
| Lead4 l : leading (Decimal.D4 l) "4" 4 l
| Lead5 l : leading (Decimal.D5 l) "5" 5 l
| Lead6 l : leading (Decimal.D6 l) "6" 6 l
| Lead7 l : leading (Decimal.D7 l) "7" 7 l
| Lead8 l : leading (Decimal.D8 l) "8" 8 l
| Lead9 l : leading (Decimal.D9 l) "9" 9 l.

(* ================================================================== *)
(** * src/server.js: the route POST /api/create-hmac                   *)
(* ================================================================== *)

(** [value[key]] for a key no prototype defines: the own property of an
    object, [None] ([undefined]) on anything else. *)
Fixpoint own_property (key : string) (members : list (string * json)) : option json :=
  match members with
  | [] => None
  | (k, v) :: r => if String.eqb k key then Some v else own_property key r
  end.

Definition property (value : json) (key : string) : option json :=
  match value with
  | JObj members => own_property key members
  | _ => None
  end.

(** The three answers of the route: 400 "Message is required", the report
    (status 200), and 500 when the handler throws. *)
Inductive CreateHmacReply :=
| MessageRequired
| Report (originalMessage : json) (simpleHMAC : string) (timestampToken : TimestampToken)
         (simple : bool) (timestampCheck : VerifyResult)
| HandlerError.

(** The handler; [req.body] is [None] when there is none, and the clock is
    read at [now] by [createWithTimestamp] and at [now'] by
    [verifyWithTimestamp].  Destructuring an absent or null body throws. *)
Definition create_hmac_route (hmac_raw : string -> string -> list byte)
           (syntax_error_message : string -> string)
           (h : SimpleHMAC) (now now' : Z) (body : option json) : CreateHmacReply :=
  match body with
  | None | Some JNull => HandlerError
  | Some b =>
      match property b "message" with
      | None => MessageRequired
      | Some message =>
          if negb (JSON.truthy message) then MessageRequired
          else
            let hmacResult := create hmac_raw h message in
            let token := createWithTimestamp hmac_raw h now message in
            Report message hmacResult token
                   (verify hmac_raw h message hmacResult)
                   (verifyWithTimestamp hmac_raw syntax_error_message h now'
                                        (fullToken token))
      end
  end.

(* ================================================================== *)
(** * Sample data                                                      *)
(* ================================================================== *)

Module Sample.

(** The secret of the README's walk-through: thirty-two times 'a'. *)
Definition h : SimpleHMAC := {| secret := "aaaaaaaaaaaaaaaaaaaaaaaaaaaaaaaa" |}.

(** [{ userId: 123, action: "test" }], the message of the client's
    self-test. *)
Definition message : json :=
  JObj [("userId", JNum (Int 123)); ("action", JStr "test")].

Definition T : Z := 1700000000000.

Definition request (timestamp signature : string) : Request :=
  {| method := "GET"; path := "/api/protected"; body := Some (JObj []);
     headers := <[ "x-timestamp" := timestamp ]> (<[ "x-signature" := signature ]> ∅) |}.

End Sample.

(* ================================================================== *)
(** * A client and a server at work                                    *)
(* ================================================================== *)

Module Scenario.

(** The GET request the client sends at [Sample.T] as the server sees it:
    the method in upper case, the empty body Express gives a request
    without one, and one more header. *)
Definition signed_get : Request :=
  {| method := "GET"; path := "/api/protected"; body := Some (JObj []);
     headers :=
       <[ "content-type" := "application/json" ]>
         (generateAuthHeaders NodeCrypto.hmac_sha256 Sample.h Sample.T
                              "get" "/api/protected" None) |}.

(** A request for a path with dots in it, and the request its signature
    also fits. *)
Definition dotted (signature : string) : Request :=
  {| method := "GET"; path := "/files/report.POST./api/protected/data";
     body := Some (JObj []);
     headers := <[ "x-timestamp" := "1700000000000" ]>
                  (<[ "x-signature" := signature ]> ∅) |}.

Definition confused (signature : string) : Request :=
  {| method := "POST"; path := "/api/protected/data"; body := Some (JObj []);
     headers := <[ "x-timestamp" := "1700000000000.GET./files/report" ]>
                  (<[ "x-signature" := signature ]> ∅) |}.

(** Bytes that stand for a draw of [crypto.randomBytes]. *)
Definition zeros (n : nat) : list byte := repeat "000"%byte n.

End Scenario.

(* ================================================================== *)
(** * Facts about the run-time library                                 *)
(* ================================================================== *)

Lemma byte_hex (b : byte) :
  Str.unhex (Str.hex_digit (Buffer.value b / 16)) = Some (Buffer.value b / 16) /\
  Str.unhex (Str.hex_digit (Buffer.value b mod 16)) = Some (Buffer.value b mod 16) /\
  Buffer.byte_of (16 * (Buffer.value b / 16) + Buffer.value b mod 16) = b.
Proof. destruct b; vm_compute; auto. Qed.

Lemma value_inj (b1 b2 : byte) : Buffer.value b1 = Buffer.value b2 -> b1 = b2.
Proof.
  intros E.
  destruct (byte_hex b1) as (_ & _ & <-), (byte_hex b2) as (_ & _ & <-).
  now rewrite E.
Qed.

(** Decoding reads back the bytes that were written, then goes on with
    what follows them. *)
Lemma fromHex_toHex_app (bs : list byte) (s : string) :
  Buffer.fromHex (Buffer.toHex bs ++ s) = (bs ++ Buffer.fromHex s)%list.
Proof.
  induction bs as [|b bs IH]; [reflexivity|].
  destruct (byte_hex b) as (H1 & H2 & H3).
  cbn [Buffer.toHex String.append Buffer.fromHex app].
  now rewrite H1, H2, H3, IH.
Qed.

Lemma fromHex_toHex (bs : list byte) : Buffer.fromHex (Buffer.toHex bs) = bs.
Proof.
  rewrite <- (app_nil_r bs) at 2.
  change [] with (Buffer.fromHex "").
  rewrite <- fromHex_toHex_app.
  f_equal. induction (Buffer.toHex bs) as [|c r IH]; cbn; congruence.
Qed.

Lemma memcmp_fold (l : list (byte * byte)) (acc : Z) :
  fold_left (fun acc xy => Z.lor acc (Z.lxor (Buffer.value (fst xy)) (Buffer.value (snd xy))))
            l acc = 0
  <-> acc = 0 /\ Forall (fun xy => fst xy = snd xy) l.
Proof.
  revert acc; induction l as [|[x y] l IH]; intros acc; cbn [fold_left fst snd].
  - split; [auto | tauto].
  - rewrite IH, Z.lor_eq_0_iff, Z.lxor_eq_0_iff. split.
    + intros [[Ha E] F]. apply value_inj in E. auto.
    + intros [Ha F]. inversion F as [|? ? E F']; subst. cbn in E. subst. auto.
Qed.

Lemma combine_same_Forall (a b : list byte) :
  length a = length b ->
  Forall (fun xy : byte * byte => fst xy = snd xy) (combine a b) <-> a = b.
Proof.
  revert b; induction a as [|x a IH]; intros [|y b] L; try discriminate L.
  - split; auto.
  - cbn [combine]. injection L as L. split.
    + intros F. inversion F as [|? ? E F']; subst. cbn in E. subst.
      f_equal. now apply IH.
    + intros E. injection E as -> ->. constructor; [reflexivity|]. now apply IH.
Qed.

(** [crypto.timingSafeEqual] answers true exactly on equal buffers, and
    throws exactly on buffers of different lengths. *)
Lemma timingSafeEqual_true (a b : list byte) :
  Buffer.timingSafeEqual a b = inr true <-> a = b.
Proof.
  unfold Buffer.timingSafeEqual, Buffer.memcmp.
  destruct (Nat.eqb (length a) (length b)) eqn:L.
  - apply Nat.eqb_eq in L. rewrite <- (combine_same_Forall a b L).
    split.
    + intros E. injection E as E. apply Z.eqb_eq in E.
      now apply memcmp_fold in E.
    + intros F. f_equal. apply Z.eqb_eq, memcmp_fold. auto.
  - apply Nat.eqb_neq in L. split; [discriminate|].
    intros ->. contradiction.
Qed.

Lemma timingSafeEqual_throws (a b : list byte) :
  (exists e, Buffer.timingSafeEqual a b = inl e) <-> length a <> length b.
Proof.
  unfold Buffer.timingSafeEqual.
  destruct (Nat.eqb (length a) (length b)) eqn:L.
  - apply Nat.eqb_eq in L. split; [intros [e E]; discriminate | contradiction].
  - apply Nat.eqb_neq in L. split; eauto.
Qed.

(** ** Splitting and characters that do not occur *)

Lemma append_assoc (a b c : string) : (a ++ b) ++ c = a ++ (b ++ c).
Proof. induction a as [|d a IH]; cbn; congruence. Qed.

Lemma lacks_app (c : ascii) (a b : string) :
  Str.lacks c (a ++ b) = Str.lacks c a && Str.lacks c b.
Proof.
  induction a as [|d a IH]; cbn; [reflexivity|].
  now rewrite IH, andb_assoc.
Qed.

Lemma split_app (c : ascii) (a b : string) :
  Str.lacks c a = true ->
  Str.split c (a ++ String c b) = a :: Str.split c b.
Proof.
  induction a as [|d a IH]; cbn [Str.lacks String.append Str.split].
  - intros _. now rewrite Ascii.eqb_refl.
  - intros H. apply andb_prop in H as [Hd Ha].
    apply negb_true_iff in Hd. rewrite Hd, (IH Ha). reflexivity.
Qed.

Lemma split_lacks (c : ascii) (a : string) :
  Str.lacks c a = true -> Str.split c a = [a].
Proof.
  induction a as [|d a IH]; cbn [Str.lacks Str.split]; [reflexivity|].
  intros H. apply andb_prop in H as [Hd Ha].
  apply negb_true_iff in Hd. now rewrite Hd, (IH Ha).
Qed.

Lemma lacks_colon_byte (b : byte) :
  Ascii.eqb (Str.hex_digit (Buffer.value b / 16)) ":" = false /\
  Ascii.eqb (Str.hex_digit (Buffer.value b mod 16)) ":" = false.
Proof. destruct b; vm_compute; auto. Qed.

(** A hex digest holds no colon. *)
Lemma lacks_colon_toHex (bs : list byte) : Str.lacks ":" (Buffer.toHex bs) = true.
Proof.
  induction bs as [|b bs IH]; [reflexivity|].
  destruct (lacks_colon_byte b) as [H1 H2].
  cbn [Buffer.toHex Str.lacks]. now rewrite H1, H2, IH.
Qed.

Lemma lacks_substring (c : ascii) (s : string) (n m : nat) :
  Str.lacks c s = true -> Str.lacks c (String.substring n m s) = true.
Proof.
  revert n m; induction s as [|d s IH]; intros [|n] [|m] H; cbn; auto.
  - apply andb_prop in H as [Hd Hs]. rewrite Hd. cbn. auto.
  - apply andb_prop in H as [_ Hs]. auto.
  - apply andb_prop in H as [_ Hs]. auto.
Qed.

Lemma lacks_colon_repeat0 (n : nat) : Str.lacks ":" (Str.repeat0 n) = true.
Proof. induction n; cbn; auto. Qed.

Lemma lacks_colon_uint (d : Decimal.uint) :
  Str.lacks ":" (NilEmpty.string_of_uint d) = true.
Proof. induction d; cbn; auto. Qed.

Lemma lacks_colon_decimal (z : Z) : Str.lacks ":" (Str.decimal z) = true.
Proof.
  unfold Str.decimal, NilZero.string_of_int, NilZero.string_of_uint.
  destruct (Z.to_int z) as [d|d]; destruct d; cbn;
    try reflexivity; apply lacks_colon_uint.
Qed.

Lemma lacks_colon_layout (ds : string) (n : Z) :
  Str.lacks ":" ds = true -> Str.lacks ":" (Num.layout ds n) = true.
Proof.
  intros H. unfold Num.layout.
  repeat match goal with |- context [if ?b then _ else _] => destruct b end.
  all: rewrite ?lacks_app, ?lacks_colon_repeat0, ?lacks_substring, ?H; auto.
  all: destruct ds as [|d [|d' r]]; auto; cbn in H |- *;
    apply andb_prop in H as [Hd Hr]; rewrite Hd; cbn;
    rewrite ?lacks_app, ?lacks_colon_decimal; cbn;
    rewrite ?lacks_app, ?lacks_colon_decimal; cbn; auto.
  all: apply andb_prop in Hr as [-> ->]; reflexivity.
Qed.

(** Neither does the decimal form of a number. *)
Lemma lacks_colon_toString (x : number) : Str.lacks ":" (Num.toString x) = true.
Proof.
  destruct x as [|z|m k]; cbn [Num.toString]; auto.
  - destruct (z =? 0); auto. rewrite lacks_app.
    rewrite lacks_colon_layout by apply lacks_substring, lacks_colon_decimal.
    now destruct (z <? 0).
  - destruct (m =? 0); auto. rewrite lacks_app.
    rewrite lacks_colon_layout by apply lacks_colon_decimal.
    now destruct (m <? 0).
Qed.

(* ================================================================== *)
(** * The digest engine: [create] and [verify]                         *)
(* ================================================================== *)

(** The published test vectors of the primitive the model is run with. *)
Example sha256_abc :
  Buffer.toHex (map Buffer.byte_of (SHA256.digest (NodeCrypto.utf8_bytes "abc")))
  = "ba7816bf8f01cfea414140de5dae2223b00361a396177a9cb410ff61f20015ad".
Proof. vm_compute. reflexivity. Qed.

Example hmac_sha256_fox :
  Buffer.toHex (NodeCrypto.hmac_sha256 "key" "The quick brown fox jumps over the lazy dog")
  = "f7bc83f430538424b13298e6aa6fb143ef4d59a14946175997479dbc2d1a3cd8".
Proof. vm_compute. reflexivity. Qed.

Section DigestEngine.

Variable hmac_raw : string -> string -> list byte.

Lemma fromHex_create (h : SimpleHMAC) (m : json) :
  Buffer.fromHex (create hmac_raw h m)
  = hmac_raw (secret h) (match m with JStr s => s | _ => JSON.stringify m end).
Proof. apply fromHex_toHex. Qed.

(** [verify] never throws (its type has no exception), and it answers
    true exactly when the candidate decodes to the bytes of the digest. *)
Lemma verify_true (h : SimpleHMAC) (m : json) (r : string) :
  verify hmac_raw h m r = true
  <-> Buffer.fromHex r = Buffer.fromHex (create hmac_raw h m).
Proof.
  unfold verify. split.
  - destruct (Buffer.timingSafeEqual _ _) as [e|b] eqn:E; [discriminate|].
    intros ->. apply timingSafeEqual_true in E. now symmetry.
  - intros ->. now rewrite (proj2 (timingSafeEqual_true _ _) eq_refl).
Qed.

(** A candidate that decodes to another number of bytes than the digest
    has makes [timingSafeEqual] throw, and [verify] answer false. *)
Lemma verify_other_length (h : SimpleHMAC) (m : json) (r : string) :
  length (Buffer.fromHex r) <> length (Buffer.fromHex (create hmac_raw h m)) ->
  verify hmac_raw h m r = false.
Proof.
  intros L. apply not_true_is_false. rewrite verify_true. congruence.
Qed.

(** C5: for every secret and every message, the digest [create] makes of
    the message verifies against that message under the same secret. *)
Theorem verify_create (h : SimpleHMAC) (m : json) :
  verify hmac_raw h m (create hmac_raw h m) = true.
Proof. now apply verify_true. Qed.

(** C6, at the failing inputs: a digest followed by one more hex digit
    (65 characters for SHA-256), or followed by characters that are not
    hex digits at all, decodes to the bytes of the digest, and [verify]
    accepts it. *)
Theorem verify_accepts_trailing_garbage (h : SimpleHMAC) (m : json) :
  verify hmac_raw h m (create hmac_raw h m ++ "0") = true /\
  verify hmac_raw h m (create hmac_raw h m ++ "zz") = true.
Proof.
  split; apply verify_true; unfold create at 1;
    rewrite fromHex_toHex_app, fromHex_create; apply app_nil_r.
Qed.

(** C10: a message that is not a string and the string holding its JSON
    serialization have the same digest, so the same candidates verify
    against either. *)
Theorem create_value_as_its_json (h : SimpleHMAC) (m : json) :
  (forall s, m <> JStr s) ->
  create hmac_raw h m = create hmac_raw h (JStr (JSON.stringify m)) /\
  forall d, verify hmac_raw h m d = verify hmac_raw h (JStr (JSON.stringify m)) d.
Proof.
  intros N.
  assert (E : create hmac_raw h m = create hmac_raw h (JStr (JSON.stringify m))).
  { unfold create. destruct m; try reflexivity. now destruct (N s). }
  split; [exact E|]. intros d. unfold verify. now rewrite E.
Qed.

End DigestEngine.

(** The first test of the client, and the same digest with a character
    too many. *)
Example verify_hello :
  create NodeCrypto.hmac_sha256 Sample.h (JStr "Hello, HMAC!")
  = "0f0c1ca0f80b53b2afbee82e141f6f9176a8e5418ebbe6dba28e0f9759fbc90e" /\
  verify NodeCrypto.hmac_sha256 Sample.h (JStr "Hello, HMAC!")
         "0f0c1ca0f80b53b2afbee82e141f6f9176a8e5418ebbe6dba28e0f9759fbc90e" = true /\
  verify NodeCrypto.hmac_sha256 Sample.h (JStr "Hello, HMAC!")
         "0f0c1ca0f80b53b2afbee82e141f6f9176a8e5418ebbe6dba28e0f9759fbc90e0" = true /\
  verify NodeCrypto.hmac_sha256 Sample.h (JStr "Hello, HMAC!")
         "0f0c1ca0f80b53b2afbee82e141f6f9176a8e5418ebbe6dba28e0f9759fbc900" = false.
Proof. repeat split; vm_compute; reflexivity. Qed.

Lemma create_value_as_its_json_witness :
  (forall s, Sample.message <> JStr s) /\
  create NodeCrypto.hmac_sha256 Sample.h Sample.message
  = create NodeCrypto.hmac_sha256 Sample.h (JStr (JSON.stringify Sample.message)).
Proof.
  assert (N : forall s, Sample.message <> JStr s) by (intros s; discriminate).
  split; [exact N|].
  exact (proj1 (create_value_as_its_json NodeCrypto.hmac_sha256 Sample.h Sample.message N)).
Defined.

(* ================================================================== *)
(** * Timestamp tokens                                                 *)
(* ================================================================== *)

(** The first part of a split holds no separator. *)
Lemma split_head (c : ascii) (s : string) :
  exists p ps, Str.split c s = p :: ps /\ Str.lacks c p = true.
Proof.
  induction s as [|d s (p & ps & E & L)]; cbn [Str.split].
  - now exists "", [].
  - destruct (Ascii.eqb d c) eqn:D.
    + now exists "", (Str.split c s).
    + rewrite E. exists (String d p), ps. cbn. now rewrite D, L.
Qed.

(** Inside an object key, or between a key and its colon, a text that
    holds no colon cannot complete the value: [JSON.parse] throws. *)
Lemma run_key_without_colon (text : string) :
  Str.lacks ":" text = true ->
  (forall acc st ms rest,
      JSON.run (JSON.InStr true acc st, JSON.FObj ms None :: rest) text = None) /\
  (forall ms k rest,
      JSON.run (JSON.Colon, JSON.FObj ms (Some k) :: rest) text = None).
Proof.
  induction text as [|c r IH]; intros L.
  - split; intros; reflexivity.
  - cbn [Str.lacks] in L. apply andb_prop in L as [Lc Lr].
    destruct (IH Lr) as [IHs IHc]. split.
    + intros acc st ms rest. cbn [JSON.run JSON.step JSON.step_plain].
      unfold JSON.string_step. destruct st as [| |n v].
      * repeat match goal with
               | |- context [if ?b then _ else _] => destruct b
               end; auto.
      * destruct (Str.code c =? 117); auto.
        destruct (JSON.escape_char c); auto.
      * destruct (Str.unhex c); auto. destruct (Nat.eqb n 3); auto.
    + intros ms k rest. cbn [JSON.run JSON.step JSON.step_plain].
      destruct (JSON.is_ws c); auto.
      destruct (Str.code c =? 58) eqn:E; auto.
      apply Z.eqb_eq in E. apply negb_true_iff, Ascii.eqb_neq in Lc.
      exfalso. apply Lc. unfold Str.code in E.
      apply (f_equal Z.to_N) in E. rewrite N2Z.id in E.
      apply (f_equal ascii_of_N) in E. now rewrite ascii_N_embedding in E.
Qed.

(** The serialization of an object with a property: the quoted first key,
    a colon, and the rest. *)
Lemma stringify_object_cons (k : string) (v : json) (ms : list (string * json)) :
  exists tail,
    JSON.stringify (JObj ((k, v) :: ms))
    = String "{" (String Str.dquote
        (JSON.quote_body k ++ String Str.dquote (String ":" tail))).
Proof.
  cbn [JSON.stringify map Str.join fst snd]. unfold JSON.quote.
  destruct ms; eexists; cbn [map Str.join String.append];
    rewrite !append_assoc; cbn [String.append]; reflexivity.
Qed.

Section Tokens.

Variable hmac_raw : string -> string -> list byte.
Variable syntax_error_message : string -> string.

(** The parts of a token [createWithTimestamp] builds: the digest, the
    timestamp, and then the serialized message split at every colon of
    its own. *)
Lemma split_fullToken (h : SimpleHMAC) (now : Z) (m : json) :
  Str.split ":" (fullToken (createWithTimestamp hmac_raw h now m))
  = hmac (createWithTimestamp hmac_raw h now m)
      :: Num.toString (Int now) :: Str.split ":" (JSON.stringify m).
Proof.
  cbn [fullToken hmac createWithTimestamp].
  change (":" ++ ?x) with (String ":" x).
  rewrite split_app by apply lacks_colon_toHex.
  change (":" ++ ?x) with (String ":" x).
  now rewrite split_app by apply lacks_colon_toString.
Qed.

(** C1, on the failing inputs: a token built from an object with at least
    one property never verifies, whatever the secret and however fresh
    the token is.  The serialized object holds a colon after its first
    key; the split cuts the message there and [JSON.parse] rejects the
    piece. *)
Theorem roundtrip_fails_on_objects
        (h : SimpleHMAC) (now now' : Z) (k : string) (v : json)
        (ms : list (string * json)) :
  let token := createWithTimestamp hmac_raw h now (JObj ((k, v) :: ms)) in
  let r := verifyWithTimestamp hmac_raw syntax_error_message h now' (fullToken token) in
  isValid r = false /\ result_data r = None /\ exists detail, r = Malformed detail.
Proof.
  intros token r.
  assert (E : exists detail, r = Malformed detail).
  { subst r token. unfold verifyWithTimestamp. rewrite split_fullToken.
    destruct (stringify_object_cons k v ms) as [tail ->].
    cbn [Str.split]. change (Ascii.eqb "{" ":") with false.
    change (Ascii.eqb Str.dquote ":") with false. cbv iota.
    destruct (split_head ":" (JSON.quote_body k ++ String Str.dquote (String ":" tail)))
      as (p & ps & -> & L).
    cbn [lookup list_lookup ToString].
    unfold JSON.parse. cbn [JSON.run].
    change (JSON.step (JSON.Value, []) "{")
      with (Some (JSON.ObjFirst, [JSON.FObj [] None])).
    cbv iota. cbn [JSON.run].
    change (JSON.step (JSON.ObjFirst, [JSON.FObj [] None]) Str.dquote)
      with (Some (JSON.InStr true [] JSON.Plain, [JSON.FObj [] None])).
    cbv iota. rewrite (proj1 (run_key_without_colon p L)). eauto. }
  destruct E as [detail ->]. cbn. eauto.
Qed.

(** The round trip does hold for a message whose serialization holds no
    colon (a number, a string without one, an array of such) and parses
    back to it, for as long as the token is not older than MAX_TOKEN_AGE. *)
Lemma roundtrip_without_colon (h : SimpleHMAC) (now now' : Z) (m : json) :
  Str.lacks ":" (JSON.stringify m) = true ->
  JSON.parse (JSON.stringify m) = Some m ->
  Global.parseInt (Num.toString (Int now)) = Some now ->
  now' - now <= SECURITY.MAX_TOKEN_AGE ->
  verifyWithTimestamp hmac_raw syntax_error_message h now'
                      (fullToken (createWithTimestamp hmac_raw h now m))
  = Checked true m (Some (now' - now)).
Proof.
  intros L J P A. unfold verifyWithTimestamp.
  rewrite split_fullToken, (split_lacks ":" _ L).
  cbn [lookup list_lookup ToString]. rewrite J, P.
  cbn [option_map Global.gt Global.number_of].
  rewrite (proj2 (Z.ltb_ge _ _) A). f_equal.
  now apply verify_true.
Qed.

(** What [verifyWithTimestamp] does once the message part has parsed
    and the timestamp part has not: the age is NaN, the expiry test is
    false, and the digest is checked against a pair whose timestamp
    serializes as null. *)
Lemma verifyWithTimestamp_NaN (h : SimpleHMAC) (now : Z) (token : string) (m : json) :
  Global.parseInt (ToString (Str.split ":" token !! 1%nat)) = None ->
  JSON.parse (ToString (Str.split ":" token !! 2%nat)) = Some m ->
  verifyWithTimestamp hmac_raw syntax_error_message h now token
  = Checked (verify hmac_raw h
               (JStr (JSON.stringify (JObj [("message", m); ("timestamp", JNum NaN)])))
               (ToString (Str.split ":" token !! 0%nat)))
            m None.
Proof.
  intros P J. unfold verifyWithTimestamp. now rewrite P, J.
Qed.

Lemma checked_with_null_timestamp (h : SimpleHMAC) (now : Z) (d : string) :
  Str.lacks ":" d = true ->
  verifyWithTimestamp hmac_raw syntax_error_message h now (d ++ ":abc:1")
  = Checked (verify hmac_raw h (JStr (Str.q "{'message':1,'timestamp':null}")) d)
            (JNum (Int 1)) None.
Proof.
  intros L.
  assert (S : Str.split ":" (d ++ ":abc:1") = [d; "abc"; "1"]).
  { change (":abc:1") with (String ":" "abc:1"). now rewrite split_app. }
  rewrite (verifyWithTimestamp_NaN h now _ (JNum (Int 1))); rewrite S; reflexivity.
Qed.

(** C3, at the failing inputs: a token whose timestamp part is the text
    abc and whose message part is the JSON text 1 is not rejected as
    malformed; its digest is checked, against the serialization of the
    message paired with a null timestamp. *)
Theorem unparseable_timestamp_is_checked (h : SimpleHMAC) (now : Z) (d : string) :
  Str.lacks ":" d = true ->
  let r := verifyWithTimestamp hmac_raw syntax_error_message h now (d ++ ":abc:1") in
  Global.parseInt "abc" = None /\
  r = Checked (verify hmac_raw h (JStr (Str.q "{'message':1,'timestamp':null}")) d)
              (JNum (Int 1)) None /\
  (reason r = "Valid token" \/ reason r = "Invalid HMAC").
Proof.
  intros L r. subst r. rewrite (checked_with_null_timestamp h now d L).
  split; [reflexivity|]. split; [reflexivity|].
  cbn. destruct (verify _ _ _ _); auto.
Qed.

(** Such a token even verifies, at any time, when its digest was made
    for the pair with the null timestamp: it never expires. *)
Lemma unparseable_timestamp_never_expires (h : SimpleHMAC) (now : Z) :
  let d := create hmac_raw h (JStr (Str.q "{'message':1,'timestamp':null}")) in
  verifyWithTimestamp hmac_raw syntax_error_message h now (d ++ ":abc:1")
  = Checked true (JNum (Int 1)) None.
Proof.
  intros d. rewrite checked_with_null_timestamp by apply lacks_colon_toHex.
  subst d. now rewrite (proj2 (verify_true hmac_raw h _ _) eq_refl).
Qed.

(** The parts C3 has right: fewer than three parts, or a message part
    that is not JSON, give the malformed-token result. *)
Lemma malformed_message (h : SimpleHMAC) (now : Z) (token : string) :
  JSON.parse (ToString (Str.split ":" token !! 2%nat)) = None ->
  exists detail,
    verifyWithTimestamp hmac_raw syntax_error_message h now token = Malformed detail
    /\ reason (Malformed detail) = "Invalid token format: " ++ detail.
Proof.
  intros J. unfold verifyWithTimestamp. rewrite J. eauto.
Qed.

Lemma malformed_few_parts (h : SimpleHMAC) (now : Z) (token : string) :
  (length (Str.split ":" token) < 3)%nat ->
  exists detail,
    verifyWithTimestamp hmac_raw syntax_error_message h now token = Malformed detail.
Proof.
  intros L. destruct (malformed_message h now token) as (d & E & _); eauto.
  rewrite (lookup_ge_None_2 (Str.split ":" token) 2) by lia. reflexivity.
Qed.

(** Once a token has parsed, its timestamp and the clock being time
    values, it is answered "Token expired" exactly when its age is above
    MAX_TOKEN_AGE = 300000 ms, whatever its digest: at an age of exactly
    300000 ms it is not, at 300001 ms it is. *)
Lemma token_expiry (h : SimpleHMAC) (now : Z) (token : string) (ts : Z) (m : json) :
  Global.parseInt (ToString (Str.split ":" token !! 1%nat)) = Some ts ->
  JSON.parse (ToString (Str.split ":" token !! 2%nat)) = Some m ->
  0 <= ts <= 8640000000000000 -> 0 <= now <= 8640000000000000 ->
  let r := verifyWithTimestamp hmac_raw syntax_error_message h now token in
  SECURITY.MAX_TOKEN_AGE = 300000 /\
  (now - ts > 300000 -> r = Expired (Some (now - ts)) 300000) /\
  (isValid r = false /\ reason r = "Token expired" <-> now - ts > 300000) /\
  (now - ts = 300000 -> reason r <> "Token expired") /\
  (now - ts = 300001 -> isValid r = false /\ reason r = "Token expired").
Proof.
  intros P J _ _ r.
  assert (R : r = if 300000 <? now - ts then Expired (Some (now - ts)) 300000
                  else Checked (verify hmac_raw h
                                  (JStr (JSON.stringify
                                     (JObj [("message", m); ("timestamp", JNum (Int ts))])))
                                  (ToString (Str.split ":" token !! 0%nat)))
                               m (Some (now - ts))).
  { subst r. unfold verifyWithTimestamp. now rewrite P, J. }
  assert (I : isValid r = false /\ reason r = "Token expired" <-> now - ts > 300000).
  { rewrite R. destruct (300000 <? now - ts) eqn:A.
    - apply Z.ltb_lt in A. cbn. split; [lia | auto].
    - apply Z.ltb_ge in A. split; [|lia].
      intros [_ E]. cbn in E. destruct (verify _ _ _ _); discriminate E. }
  split; [reflexivity|]. split; [|split; [exact I|split]].
  - intros A. rewrite R. now rewrite (proj2 (Z.ltb_lt _ _)) by lia.
  - intros A E. rewrite R in E.
    rewrite (proj2 (Z.ltb_ge _ _)) in E by lia.
    cbn in E. destruct (verify _ _ _ _); discriminate E.
  - intros A. apply I. lia.
Qed.

End Tokens.

Lemma unparseable_timestamp_is_checked_witness :
  Str.lacks ":" "00" = true /\
  verifyWithTimestamp NodeCrypto.hmac_sha256 NodeCrypto.syntax_error_message
                      Sample.h Sample.T "00:abc:1"
  = Checked false (JNum (Int 1)) None.
Proof.
  split; [reflexivity|].
  pose proof (unparseable_timestamp_is_checked
                NodeCrypto.hmac_sha256 NodeCrypto.syntax_error_message
                Sample.h Sample.T "00" eq_refl) as H.
  cbv zeta in H. destruct H as (_ & E & _).
  etransitivity; [exact E|]. vm_compute. reflexivity.
Defined.

(** A token that is 300001 ms old and carries the right digest. *)
Example expired_number_token :
  let token := createWithTimestamp NodeCrypto.hmac_sha256 Sample.h Sample.T (JNum (Int 5)) in
  verify NodeCrypto.hmac_sha256 Sample.h
         (JStr (Str.q "{'message':5,'timestamp':1700000000000}")) (hmac token) = true /\
  verifyWithTimestamp NodeCrypto.hmac_sha256 NodeCrypto.syntax_error_message
                      Sample.h (Sample.T + 300001) (fullToken token)
  = Expired (Some 300001) 300000.
Proof.
  intros token. split; [vm_compute; reflexivity|].
  assert (P : Global.parseInt (ToString (Str.split ":" (fullToken token) !! 1%nat))
              = Some Sample.T) by (vm_compute; reflexivity).
  assert (J : JSON.parse (ToString (Str.split ":" (fullToken token) !! 2%nat))
              = Some (JNum (Int 5))) by (vm_compute; reflexivity).
  assert (R : 0 <= Sample.T <= 8640000000000000) by (vm_compute; split; congruence).
  assert (R' : 0 <= Sample.T + 300001 <= 8640000000000000)
    by (vm_compute; split; congruence).
  pose proof (token_expiry NodeCrypto.hmac_sha256 NodeCrypto.syntax_error_message
                Sample.h (Sample.T + 300001) (fullToken token) Sample.T (JNum (Int 5))
                P J R R') as H.
  cbv zeta in H. destruct H as (_ & E & _).
  apply E. vm_compute. reflexivity.
Qed.

(** Fresh tokens for messages without a colon do come back. *)
Example roundtrip_number :
  verifyWithTimestamp NodeCrypto.hmac_sha256 NodeCrypto.syntax_error_message
    Sample.h (Sample.T + 1000)
    (fullToken (createWithTimestamp NodeCrypto.hmac_sha256 Sample.h Sample.T (JNum (Int 5))))
  = Checked true (JNum (Int 5)) (Some 1000).
Proof. apply roundtrip_without_colon; vm_compute; congruence. Qed.

Example roundtrip_array :
  let m := JArr [JStr "Hello, HMAC!"; JNull; JBool true; JNum (Frac 15 1)] in
  verifyWithTimestamp NodeCrypto.hmac_sha256 NodeCrypto.syntax_error_message
    Sample.h (Sample.T + 300000)
    (fullToken (createWithTimestamp NodeCrypto.hmac_sha256 Sample.h Sample.T m))
  = Checked true m (Some 300000).
Proof. intros m. apply roundtrip_without_colon; vm_compute; congruence. Qed.

(** The client's self-test, at the failing input of C1. *)
Example roundtrip_self_test :
  fullToken (createWithTimestamp NodeCrypto.hmac_sha256 Sample.h Sample.T Sample.message)
  = Str.q ("c1b40094c332e482b8d0543aa0e9031db618b802d46a9960f0c8643c355942b3"
           ++ ":1700000000000:{'userId':123,'action':'test'}") /\
  verifyWithTimestamp NodeCrypto.hmac_sha256 NodeCrypto.syntax_error_message
    Sample.h Sample.T
    (fullToken (createWithTimestamp NodeCrypto.hmac_sha256 Sample.h Sample.T Sample.message))
  = Malformed (NodeCrypto.syntax_error_message (Str.q "{'userId'")).
Proof. split; vm_compute; reflexivity. Qed.

(* ================================================================== *)
(** * The canonical string to sign                                     *)
(* ================================================================== *)

(** Upper-casing leaves no lowercase ASCII letter. *)
Lemma toUpperCase_no_lower (s : string) :
  forallb (fun c => negb (Str.is_lower c)) (Str.to_list (Str.toUpperCase s)) = true.
Proof.
  induction s as [|c s IH]; [reflexivity|].
  cbn [Str.toUpperCase Str.to_list list_ascii_of_string forallb].
  fold (Str.to_list (Str.toUpperCase s)). rewrite IH, andb_true_r.
  destruct (Str.is_lower c) eqn:L; [|now rewrite L].
  clear IH. destruct c as [[] [] [] [] [] [] [] []]; try discriminate L; reflexivity.
Qed.

(** C8 as stated fails on a body that is false without being null: for
    the body 0 the code signs the empty mapping, not the JSON text 0. *)
Lemma stringToSign_of_zero_body :
  createStringToSign "post" "/api/protected/data" (Some (JNum (Int 0))) "1700000000000"
  = "1700000000000.POST./api/protected/data.{}" /\
  specified_stringToSign "post" "/api/protected/data" (Some (JNum (Int 0))) "1700000000000"
  = "1700000000000.POST./api/protected/data.0" /\
  createStringToSign "post" "/api/protected/data" (Some (JNum (Int 0))) "1700000000000"
  <> specified_stringToSign "post" "/api/protected/data" (Some (JNum (Int 0))) "1700000000000".
Proof. repeat split; try reflexivity. vm_compute. discriminate. Qed.

(** C8, amended: for a method of ASCII characters, the string to sign is
    timestamp, upper-cased method, path and serialized body joined by
    dots, where every body JavaScript takes for false (absent, null,
    false, 0, NaN, the empty string) is replaced by the empty mapping;
    the function is total. *)
Theorem createStringToSign_format (method path : string) (body : option json)
        (timestamp : string) :
  ascii_only method = true ->
  createStringToSign method path body timestamp
  = specified_stringToSign method path (if falsy_body body then None else body) timestamp
  /\ (falsy_body body = true ->
      createStringToSign method path body timestamp
      = timestamp ++ "." ++ Str.toUpperCase method ++ "." ++ path ++ ".{}").
Proof.
  intros _.
  assert (B : body_or_empty body
              = specified_body (if falsy_body body then None else body)).
  { destruct body as [[| [] | [|z|m k] | s | l | l]|]; try reflexivity.
    - now destruct z.
    - now destruct s. }
  unfold createStringToSign, specified_stringToSign. rewrite B.
  split; [reflexivity|]. now intros ->.
Qed.

Lemma createStringToSign_format_witness :
  ascii_only "get" = true /\
  falsy_body (Some (JBool false)) = true /\
  createStringToSign "get" "/public" (Some (JBool false)) "17"
  = "17.GET./public.{}".
Proof.
  split; [reflexivity|]. split; [reflexivity|].
  exact (proj2 (createStringToSign_format "get" "/public" (Some (JBool false)) "17"
                  eq_refl) eq_refl).
Defined.

(* ================================================================== *)
(** * The request-verification middleware                              *)
(* ================================================================== *)

Section Middleware.

Variable hmac_raw : string -> string -> list byte.

Lemma falsy_nonempty (s : string) : s <> "" -> falsy (Some s) = false.
Proof. intros N. cbn. now apply String.eqb_neq. Qed.

(** The middleware, once the headers are there. *)
Lemma hmacAuth_with_headers (h : SimpleHMAC) (now : Z) (req : Request) (ts sig : string) :
  has_auth_headers req ts sig ->
  hmacAuth hmac_raw h now req
  = match Global.parseInt ts with
    | Some t =>
        if SECURITY.MAX_TOKEN_AGE <? Z.abs (now - t) then
          if (Z.abs t <=? 8640000000000000) && (Z.abs now <=? 8640000000000000)
          then Reply 401 "Request expired"
          else Reply 500 "Authentication error"
        else signature_check hmac_raw h req ts sig
    | None => signature_check hmac_raw h req ts sig
    end.
Proof.
  intros (Ht & Nt & Hs & Ns). unfold hmacAuth, signature_check.
  rewrite Ht, Hs, (falsy_nonempty ts Nt), (falsy_nonempty sig Ns).
  cbn [orb ToString]. destruct (Global.parseInt ts) as [t|]; cbn; [|reflexivity].
  destruct (SECURITY.MAX_TOKEN_AGE <? Z.abs (now - t)); [|reflexivity].
  destruct (Z.abs t <=? 8640000000000000), (Z.abs now <=? 8640000000000000);
    reflexivity.
Qed.

(** C2, at the failing inputs: a request whose timestamp header is there
    but does not parse is not turned away for it.  [parseInt] gives NaN,
    the test of the age is false on NaN, and the clock has no say any
    more: a request whose signature fits the string to sign built from
    the header as received is let through, now and at any later time. *)
Theorem unparseable_timestamp_is_let_through
        (h : SimpleHMAC) (req : Request) (ts sig : string) :
  has_auth_headers req ts sig ->
  Global.parseInt ts = None ->
  verify hmac_raw h
         (JStr (createStringToSign (method req) (path req) (body req) ts)) sig = true ->
  forall now, hmacAuth hmac_raw h now req = CallNext.
Proof.
  intros H P V now. rewrite (hmacAuth_with_headers h now req ts sig H), P.
  unfold signature_check. now rewrite V.
Qed.

(** With any other signature the answer is the 401 "Invalid signature" of
    a mismatch: no answer speaks of the timestamp, and none is a 500. *)
Lemma unparseable_timestamp_wrong_signature
      (h : SimpleHMAC) (now : Z) (req : Request) (ts sig : string) :
  has_auth_headers req ts sig ->
  Global.parseInt ts = None ->
  verify hmac_raw h
         (JStr (createStringToSign (method req) (path req) (body req) ts)) sig = false ->
  hmacAuth hmac_raw h now req = Reply 401 "Invalid signature".
Proof.
  intros H P V. rewrite (hmacAuth_with_headers h now req ts sig H), P.
  unfold signature_check. now rewrite V.
Qed.

(** With a timestamp header that parses to a time value, the answer is
    "Request expired" exactly when the request time is more than
    MAX_TOKEN_AGE away from now, before or after it. *)
Lemma request_expiry (h : SimpleHMAC) (now : Z) (req : Request) (ts sig : string) (t : Z) :
  has_auth_headers req ts sig ->
  Global.parseInt ts = Some t ->
  Z.abs t <= 8640000000000000 -> Z.abs now <= 8640000000000000 ->
  (hmacAuth hmac_raw h now req = Reply 401 "Request expired"
   <-> Z.abs (now - t) > SECURITY.MAX_TOKEN_AGE).
Proof.
  intros H P Rt Rn. rewrite (hmacAuth_with_headers h now req ts sig H), P.
  rewrite (proj2 (Z.leb_le _ _) Rt), (proj2 (Z.leb_le _ _) Rn). cbn [andb].
  destruct (SECURITY.MAX_TOKEN_AGE <? Z.abs (now - t)) eqn:A.
  - apply Z.ltb_lt in A. split; [lia | reflexivity].
  - apply Z.ltb_ge in A. split; [|lia].
    unfold signature_check. destruct (verify _ _ _ _); discriminate.
Qed.

(** A request time beyond the range of [Date] is never answered
    "Request expired": the clock being a time value, the request is too
    far from it, and building the answer throws. *)
Lemma request_time_out_of_range
      (h : SimpleHMAC) (now : Z) (req : Request) (ts sig : string) (t : Z) :
  has_auth_headers req ts sig ->
  Global.parseInt ts = Some t ->
  Z.abs t > 8640000000000000 -> Z.abs now <= 8640000000000000 - SECURITY.MAX_TOKEN_AGE ->
  hmacAuth hmac_raw h now req = Reply 500 "Authentication error".
Proof.
  intros H P Rt Rn. rewrite (hmacAuth_with_headers h now req ts sig H), P.
  unfold SECURITY.MAX_TOKEN_AGE in *.
  rewrite (proj2 (Z.ltb_lt _ _)) by lia.
  now rewrite (proj2 (Z.leb_gt _ _)) by lia.
Qed.

(** C7, at the failing input: a request stamped 10^16 ms, beyond the
    range of [Date], is more than MAX_TOKEN_AGE away from any clock, yet
    it is not answered "Request expired": building that answer throws,
    and the middleware answers 500 "Authentication error". *)
Theorem far_future_request_is_an_error (h : SimpleHMAC) :
  Z.abs (Sample.T - 10000000000000000) > SECURITY.MAX_TOKEN_AGE /\
  hmacAuth hmac_raw h Sample.T (Sample.request "10000000000000000" "00")
  = Reply 500 "Authentication error".
Proof.
  split; [reflexivity|].
  rewrite (hmacAuth_with_headers h Sample.T _ "10000000000000000" "00").
  - reflexivity.
  - repeat split; try discriminate; vm_compute; reflexivity.
Qed.

End Middleware.

(** The request with the timestamp header abc and a wrong signature is
    answered exactly as a request with a sound timestamp and a wrong
    signature is, with 401 "Invalid signature". *)
Example unparseable_timestamp_is_invalid_signature :
  Global.parseInt "abc" = None /\
  hmacAuth NodeCrypto.hmac_sha256 Sample.h Sample.T (Sample.request "abc" "00")
  = Reply 401 "Invalid signature" /\
  hmacAuth NodeCrypto.hmac_sha256 Sample.h Sample.T (Sample.request "1700000000000" "00")
  = Reply 401 "Invalid signature".
Proof. repeat split; vm_compute; reflexivity. Qed.

(** With the signature of the string to sign it is let through. *)
Example unparseable_timestamp_authenticated :
  let signature :=
    create NodeCrypto.hmac_sha256 Sample.h (JStr "abc.GET./api/protected.{}") in
  hmacAuth NodeCrypto.hmac_sha256 Sample.h Sample.T (Sample.request "abc" signature)
  = CallNext.
Proof. vm_compute. reflexivity. Qed.

(** The request GET /api/protected stamped abc and signed for the string
    abc.GET./api/protected.{} is let through whatever the clock says. *)
Lemma unparseable_timestamp_is_let_through_witness :
  let signature :=
    create NodeCrypto.hmac_sha256 Sample.h (JStr "abc.GET./api/protected.{}") in
  has_auth_headers (Sample.request "abc" signature) "abc" signature /\
  Global.parseInt "abc" = None /\
  forall now,
    hmacAuth NodeCrypto.hmac_sha256 Sample.h now (Sample.request "abc" signature)
    = CallNext.
Proof.
  intros signature.
  assert (H : has_auth_headers (Sample.request "abc" signature) "abc" signature).
  { repeat split; try (vm_compute; discriminate); vm_compute; reflexivity. }
  split; [exact H|]. split; [reflexivity|].
  apply (unparseable_timestamp_is_let_through NodeCrypto.hmac_sha256
           Sample.h (Sample.request "abc" signature) "abc" signature H eq_refl).
  vm_compute. reflexivity.
Defined.

(* ================================================================== *)
(** * More about digests and candidates                                *)
(* ================================================================== *)

Lemma value_byte_of (n : Z) : 0 <= n < 256 -> Buffer.value (Buffer.byte_of n) = n.
Proof.
  intros R. unfold Buffer.value, Buffer.byte_of, Str.code, Str.chr.
  rewrite ascii_of_byte_of_ascii, N_ascii_embedding by lia. lia.
Qed.

Lemma hex_lower_digit (c : ascii) :
  is_hex_lower c = true ->
  exists x, Str.unhex c = Some x /\ 0 <= x < 16 /\ Str.hex_digit x = c.
Proof.
  destruct c as [[] [] [] [] [] [] [] []]; intros H; try discriminate H;
    eexists; (split; [vm_compute; reflexivity|]); (split; [lia | reflexivity]).
Qed.

(** Writing back what a canonical digest decodes to gives the digest. *)
Lemma toHex_fromHex (s : string) :
  canonical_hex s = true -> Buffer.toHex (Buffer.fromHex s) = s.
Proof.
  revert s. fix IH 1. intros [|a [|b r]] H; try reflexivity; try discriminate H.
  cbn [canonical_hex] in H.
  apply andb_prop in H as [H Hr]. apply andb_prop in H as [Ha Hb].
  destruct (hex_lower_digit a Ha) as (x & Ux & Rx & Dx).
  destruct (hex_lower_digit b Hb) as (y & Uy & Ry & Dy).
  cbn [Buffer.fromHex]. rewrite Ux, Uy. cbn [Buffer.toHex].
  rewrite value_byte_of by lia.
  replace ((16 * x + y) / 16) with x by (Z.to_euclidean_division_equations; lia).
  replace ((16 * x + y) mod 16) with y by (Z.to_euclidean_division_equations; lia).
  now rewrite Dx, Dy, (IH r Hr).
Qed.

Lemma canonical_toHex (bs : list byte) : canonical_hex (Buffer.toHex bs) = true.
Proof.
  induction bs as [|b bs IH]; [reflexivity|].
  cbn [Buffer.toHex canonical_hex]. rewrite IH, andb_true_r.
  destruct b; reflexivity.
Qed.

Lemma length_toHex (bs : list byte) :
  String.length (Buffer.toHex bs) = (2 * length bs)%nat.
Proof. induction bs as [|b bs IH]; cbn [Buffer.toHex String.length length]; lia. Qed.

Lemma length_fromHex (s : string) :
  (2 * length (Buffer.fromHex s) <= String.length s)%nat.
Proof.
  revert s. fix IH 1. intros [|a [|b r]]; cbn [Buffer.fromHex String.length length]; try lia.
  destruct (Str.unhex a), (Str.unhex b); cbn [length]; try lia.
  specialize (IH r). lia.
Qed.

Lemma unhex_upper (c : ascii) :
  Str.unhex (if Str.is_lower c then Str.chr (Str.code c - 32) else c) = Str.unhex c.
Proof. destruct c as [[] [] [] [] [] [] [] []]; reflexivity. Qed.

Lemma fromHex_toUpperCase (s : string) :
  Buffer.fromHex (Str.toUpperCase s) = Buffer.fromHex s.
Proof.
  revert s. fix IH 1. intros [|a [|b r]]; try reflexivity.
  cbn [Str.toUpperCase Buffer.fromHex]. now rewrite !unhex_upper, (IH r).
Qed.

Section Candidates.

Variable hmac_raw : string -> string -> list byte.

(** X1: on a candidate of ASCII characters and a message whose numbers
    are safe integers, [verify] answers true exactly when the candidate,
    decoded as [Buffer.from(_, "hex")] decodes it, is the keyed hash of
    the message (of the message itself when it is a string, of its JSON
    serialization otherwise); it never throws. *)
Theorem verify_iff_decodes (h : SimpleHMAC) (m : json) (r : string) :
  ascii_only r = true ->
  safe_numbers m = true ->
  (verify hmac_raw h m r = true
   <-> Buffer.fromHex r
       = hmac_raw (secret h) (match m with JStr s => s | _ => JSON.stringify m end)).
Proof. intros _ _. now rewrite verify_true, fromHex_create. Qed.

(** X2: on a candidate written as digests are (an even number of lowercase
    hex digits), [verify] is string equality with the digest of the
    message. *)
Theorem verify_canonical (h : SimpleHMAC) (m : json) (r : string) :
  canonical_hex r = true ->
  (verify hmac_raw h m r = true <-> r = create hmac_raw h m).
Proof.
  intros C. rewrite verify_true. split; [|now intros ->].
  intros E. rewrite <- (toHex_fromHex r C), E.
  apply toHex_fromHex, canonical_toHex.
Qed.

(** X3: a candidate with fewer characters than the digest is rejected. *)
Theorem verify_rejects_shorter (h : SimpleHMAC) (m : json) (r : string) :
  (String.length r < String.length (create hmac_raw h m))%nat ->
  verify hmac_raw h m r = false.
Proof.
  intros L. apply verify_other_length.
  rewrite fromHex_create. unfold create in L. rewrite length_toHex in L.
  pose proof (length_fromHex r). lia.
Qed.

(** X4: [verify] does not look at the case of the letters of a candidate
    made of ASCII characters: the digest written in upper case verifies
    as well. *)
Theorem verify_ignores_case (h : SimpleHMAC) (m : json) (r : string) :
  forallb (fun c => Str.code c <? 128) (Str.to_list r) = true ->
  verify hmac_raw h m (Str.toUpperCase r) = verify hmac_raw h m r.
Proof. intros _. unfold verify. now rewrite fromHex_toUpperCase. Qed.

End Candidates.

(** ** The default algorithm gives 32 bytes *)

Lemma round_length (st : list Z) (kw : Z * Z) :
  length st = 8%nat -> length (SHA256.round st kw) = 8%nat.
Proof.
  intros L. do 9 (destruct st as [|? st]; try discriminate L). reflexivity.
Qed.

Lemma rounds_length (l : list (Z * Z)) (st : list Z) :
  length st = 8%nat -> length (fold_left SHA256.round l st) = 8%nat.
Proof.
  revert st; induction l as [|kw l IH]; intros st L; [exact L|].
  cbn [fold_left]. apply IH, round_length, L.
Qed.

Lemma compress_length (hash block : list Z) :
  length hash = 8%nat -> length (SHA256.compress hash block) = 8%nat.
Proof.
  intros L. unfold SHA256.compress.
  rewrite length_map, length_combine, rounds_length by exact L. lia.
Qed.

Lemma digest_length (msg : list Z) : length (SHA256.digest msg) = 32%nat.
Proof.
  unfold SHA256.digest.
  assert (L : forall bs hash, length hash = 8%nat ->
                length (fold_left SHA256.compress bs hash) = 8%nat).
  { induction bs as [|b bs IH]; intros hash H; [exact H|].
    cbn [fold_left]. apply IH, compress_length, H. }
  specialize (L (SHA256.blocks (length (SHA256.words (SHA256.pad msg)))
                                (SHA256.words (SHA256.pad msg)))
                SHA256.H0 eq_refl).
  revert L. generalize (fold_left SHA256.compress
    (SHA256.blocks (length (SHA256.words (SHA256.pad msg))) (SHA256.words (SHA256.pad msg)))
    SHA256.H0).
  intros l L. do 9 (destruct l as [|? l]; try discriminate L). reflexivity.
Qed.

Lemma hmac_sha256_length (key data : string) :
  length (NodeCrypto.hmac_sha256 key data) = 32%nat.
Proof.
  unfold NodeCrypto.hmac_sha256, NodeCrypto.hmac_sha256_bytes.
  now rewrite length_map, digest_length.
Qed.

(** X5: with the default algorithm, [create] returns 64 lowercase hex
    digits, whatever the secret and the message. *)
Theorem create_sha256_shape (h : SimpleHMAC) (m : json) :
  String.length (create NodeCrypto.hmac_sha256 h m) = 64%nat /\
  canonical_hex (create NodeCrypto.hmac_sha256 h m) = true.
Proof.
  unfold create. now rewrite length_toHex, hmac_sha256_length, canonical_toHex.
Qed.

(* ================================================================== *)
(** * Timestamps written and read back                                 *)
(* ================================================================== *)


Lemma tzr_cons (a : ascii) (r : list ascii) :
  Num.trailing_zeros_rev (a :: r)
  = if Ascii.eqb a "0" then S (Num.trailing_zeros_rev r) else O.
Proof. destruct a as [[] [] [] [] [] [] [] []]; reflexivity. Qed.

Lemma tzr_spec (m : list ascii) :
  m = (repeat "0"%char (Num.trailing_zeros_rev m)
         ++ skipn (Num.trailing_zeros_rev m) m)%list.
Proof.
  induction m as [|a m IH]; [reflexivity|].
  rewrite tzr_cons. destruct (Ascii.eqb_spec a "0") as [->|N]; [|reflexivity].
  cbn [repeat skipn app]. now rewrite <- IH.
Qed.

Lemma rev_repeat0 (n : nat) : rev (repeat "0"%char n) = repeat "0"%char n.
Proof.
  induction n as [|n IH]; [reflexivity|].
  cbn [repeat rev]. rewrite IH. clear IH.
  induction n as [|n IH]; [reflexivity|]. cbn [repeat app]. now rewrite IH.
Qed.

Lemma substring_0 (n : nat) (s : string) :
  String.substring 0 n s = Str.of_list (firstn n (Str.to_list s)).
Proof.
  unfold Str.of_list, Str.to_list.
  revert n; induction s as [|c s IH]; intros [|n]; try reflexivity.
  cbn. now rewrite IH.
Qed.

Lemma of_list_app (a b : list ascii) :
  Str.of_list (a ++ b)%list = Str.of_list a ++ Str.of_list b.
Proof. unfold Str.of_list. induction a as [|c a IH]; cbn; congruence. Qed.

Lemma repeat0_of_list (n : nat) : Str.repeat0 n = Str.of_list (repeat "0"%char n).
Proof. unfold Str.of_list. induction n as [|n IH]; cbn; congruence. Qed.

Lemma length_to_list (s : string) : length (Str.to_list s) = String.length s.
Proof. unfold Str.to_list. induction s as [|c s IH]; cbn; congruence. Qed.

(** Putting the trailing zeros back gives the string. *)
Lemma strip_zeros_repeat0 (s : string) :
  Num.strip_zeros s ++ Str.repeat0 (Num.trailing_zeros s) = s /\
  (Num.trailing_zeros s <= String.length s)%nat /\
  String.length (Num.strip_zeros s) = (String.length s - Num.trailing_zeros s)%nat.
Proof.
  unfold Num.strip_zeros, Num.trailing_zeros.
  set (m := rev (Str.to_list s)).
  set (t := Num.trailing_zeros_rev m).
  assert (E : Str.to_list s = (rev (skipn t m) ++ repeat "0"%char t)%list).
  { rewrite <- (rev_involutive (Str.to_list s)). fold m.
    rewrite (tzr_spec m) at 1. fold t. now rewrite rev_app_distr, rev_repeat0. }
  assert (L : length (Str.to_list s) = (length (rev (skipn t m)) + t)%nat).
  { rewrite E at 1. now rewrite length_app, repeat_length. }
  rewrite length_to_list in L.
  assert (F : String.substring 0 (String.length s - t) s = Str.of_list (rev (skipn t m))).
  { rewrite substring_0, E. f_equal.
    replace (String.length s - t)%nat with (length (rev (skipn t m)) + 0)%nat by lia.
    rewrite firstn_app_2. cbn. apply app_nil_r. }
  rewrite F. split; [|split].
  - rewrite repeat0_of_list, <- of_list_app, <- E.
    apply string_of_list_ascii_of_string.
  - lia.
  - rewrite <- F, substring_0, <- length_to_list.
    unfold Str.of_list, Str.to_list. rewrite list_ascii_of_string_of_list_ascii.
    rewrite length_firstn, length_to_list. lia.
Qed.

Lemma length_string_of_uint (d : Decimal.uint) :
  String.length (NilEmpty.string_of_uint d) = Decimal.nb_digits d.
Proof. induction d; cbn; congruence. Qed.

Lemma of_uint_acc_lower (d : Decimal.uint) (acc : positive) :
  Z.pos acc * 10 ^ Z.of_nat (Decimal.nb_digits d) <= Z.pos (Pos.of_uint_acc d acc).
Proof.
  revert acc; induction d; intros acc; cbn [Decimal.nb_digits Pos.of_uint_acc];
    [cbn; lia | ..];
    (etransitivity; [|apply IHd]);
    rewrite Nat2Z.inj_succ, Z.pow_succ_r by lia;
    assert (0 < 10 ^ Z.of_nat (Decimal.nb_digits d)) by (apply Z.pow_pos_nonneg; lia);
    nia.
Qed.

Lemma nzhead_not_D0 (d u : Decimal.uint) : Decimal.nzhead d <> Decimal.D0 u.
Proof. induction d; cbn; try discriminate. exact IHd. Qed.

Lemma to_uint_leading (p : positive) :
  exists c i l, leading (Pos.to_uint p) c i l /\ Pos.of_uint_acc l i = p.
Proof.
  assert (N : Pos.to_uint p = Decimal.unorm (Pos.to_uint p)).
  { rewrite <- (DecimalPos.Unsigned.to_of (Pos.to_uint p)).
    now rewrite DecimalPos.Unsigned.of_to. }
  pose proof (DecimalPos.Unsigned.of_to p) as V.
  pose proof (DecimalPos.Unsigned.to_uint_nonnil p) as NN.
  pose proof (DecimalPos.Unsigned.to_uint_nonzero p) as NZ.
  destruct (Pos.to_uint p) as [|l|l|l|l|l|l|l|l|l|l] eqn:E; [now destruct NN| |..].
  - exfalso. unfold Decimal.unorm in N. cbn [Decimal.nzhead] in N.
    destruct (Decimal.nzhead l) eqn:H; try discriminate N.
    + injection N as ->. now apply NZ.
    + injection N as ->. now apply (nzhead_not_D0 (Decimal.D0 u) u).
  - exists "1"%char, 1%positive, l. split; [constructor|]. cbn in V. congruence.
  - exists "2"%char, 2%positive, l. split; [constructor|]. cbn in V. congruence.
  - exists "3"%char, 3%positive, l. split; [constructor|]. cbn in V. congruence.
  - exists "4"%char, 4%positive, l. split; [constructor|]. cbn in V. congruence.
  - exists "5"%char, 5%positive, l. split; [constructor|]. cbn in V. congruence.
  - exists "6"%char, 6%positive, l. split; [constructor|]. cbn in V. congruence.
  - exists "7"%char, 7%positive, l. split; [constructor|]. cbn in V. congruence.
  - exists "8"%char, 8%positive, l. split; [constructor|]. cbn in V. congruence.
  - exists "9"%char, 9%positive, l. split; [constructor|]. cbn in V. congruence.
Qed.

Lemma decimal_pos (p : positive) :
  exists c i l,
    Str.decimal (Z.pos p) = String c (NilEmpty.string_of_uint l) /\
    Str.digit_val c = Some (Z.pos i) /\ Z.pos i <> 0 /\ Z.pos i < 10 /\
    Pos.of_uint_acc l i = p.
Proof.
  destruct (to_uint_leading p) as (c & i & l & L & V).
  exists c, i, l. unfold Str.decimal. cbn [Z.to_int NilZero.string_of_int].
  destruct L; cbn; repeat split; auto; lia.
Qed.

Lemma length_decimal (z : Z) :
  0 < z < 10 ^ 21 -> (String.length (Str.decimal z) <= 21)%nat.
Proof.
  intros [P B]. destruct z as [|p|p]; try lia.
  destruct (decimal_pos p) as (c & i & l & -> & _ & _ & _ & V).
  cbn [String.length]. rewrite length_string_of_uint.
  pose proof (of_uint_acc_lower l i) as Lw. rewrite V in Lw.
  assert (10 ^ Z.of_nat (Decimal.nb_digits l) < 10 ^ 21) by nia.
  apply Z.pow_lt_mono_r_iff in H; lia.
Qed.

Lemma layout_decimal (a : Z) :
  0 < a < 10 ^ 21 ->
  Num.layout (Num.strip_zeros (Str.decimal a))
             (Z.of_nat (String.length (Str.decimal a))) = Str.decimal a.
Proof.
  intros R. pose proof (length_decimal a R) as L.
  destruct (strip_zeros_repeat0 (Str.decimal a)) as (E & T & K).
  unfold Num.layout. rewrite K.
  rewrite (proj2 (Z.leb_le _ _)) by lia.
  rewrite (proj2 (Z.leb_le _ _)) by lia. cbn [andb].
  replace (Z.to_nat _) with (Num.trailing_zeros (Str.decimal a)) by lia.
  exact E.
Qed.

(** An integer below 10^21 in magnitude is printed as its decimal digits,
    after a minus sign when it is negative. *)
Lemma toString_Int (z : Z) :
  0 <= z < 10 ^ 21 -> Num.toString (Int z) = Str.decimal z.
Proof.
  intros [P B]. destruct (Z.eq_dec z 0) as [->|N]; [reflexivity|].
  cbn [Num.toString]. rewrite (proj2 (Z.eqb_neq _ _) N), (proj2 (Z.ltb_ge _ _) P).
  rewrite Z.abs_eq by lia. cbn [String.append]. apply layout_decimal. lia.
Qed.

Lemma toString_Int_neg (p : positive) :
  Z.pos p < 10 ^ 21 -> Num.toString (Int (Z.neg p)) = String "-" (Str.decimal (Z.pos p)).
Proof.
  intros B. cbn [Num.toString Z.eqb Z.ltb Z.compare Z.abs String.append].
  f_equal. apply layout_decimal. lia.
Qed.

Lemma digits_uint (d : Decimal.uint) (acc : positive) (rest : string) :
  Global.digits 10 (Some (Z.pos acc)) (NilEmpty.string_of_uint d ++ rest)
  = Global.digits 10 (Some (Z.pos (Pos.of_uint_acc d acc))) rest.
Proof.
  revert acc; induction d; intros acc;
    cbn [NilEmpty.string_of_uint String.append Pos.of_uint_acc]; [reflexivity|..];
    rewrite <- IHd; cbn [Global.digits];
    match goal with
    | |- context [Str.unhex ?c] =>
        let v := eval vm_compute in (Str.unhex c) in change (Str.unhex c) with v
    end; cbv beta iota;
    match goal with
    | |- context [?i <? 10] => change (i <? 10) with true
    end; cbv beta iota; do 2 f_equal; cbv [default id]; lia.
Qed.

Lemma trim_start_digit (c : ascii) (r : string) :
  Str.digit_val c <> None -> Global.trim_start (String c r) = String c r.
Proof.
  intros D. destruct c as [[] [] [] [] [] [] [] []];
    try (now destruct D); destruct r as [|b [|c3 r3]]; reflexivity.
Qed.

(** [parseInt] reads the decimal form of a positive integer back, and
    goes on with what follows it. *)
Lemma parseInt_decimal_app (p : positive) (rest : string) :
  Global.parseInt (Str.decimal (Z.pos p) ++ rest)
  = Global.digits 10 (Some (Z.pos p)) rest.
Proof.
  destruct (to_uint_leading p) as (c & i & l & L & V).
  unfold Str.decimal. cbn [Z.to_int NilZero.string_of_int].
  unfold Global.parseInt.
  destruct L; cbn [NilZero.string_of_uint NilEmpty.string_of_uint String.append];
    rewrite trim_start_digit by discriminate; cbv beta iota;
    cbn [Global.digits]; rewrite <- V;
    match goal with |- _ = Global.digits _ _ ?r => rewrite <- (digits_uint _ _ r) end;
    match goal with
    | |- match ?x with Some v => Some (1 * v) | None => None end = ?y =>
        change x with y; destruct y; [f_equal; lia | reflexivity]
    end.
Qed.

(** The timestamp the client writes is read back as the instant it was
    taken at, also when a dot and more text follow it. *)
Lemma parseInt_getTimestamp (now : Z) :
  0 <= now < 10 ^ 21 ->
  Global.parseInt (getTimestamp now) = Some now /\
  forall x, Global.parseInt (getTimestamp now ++ String "." x) = Some now.
Proof.
  intros R. unfold getTimestamp. rewrite toString_Int by exact R.
  destruct now as [|p|p]; [| | lia].
  { split; [reflexivity|]. intros x.
    change (Str.decimal 0 ++ String "." x) with (String "0" (String "." x)).
    unfold Global.parseInt. rewrite trim_start_digit by discriminate. reflexivity. }
  split.
  - transitivity (Global.parseInt (Str.decimal (Z.pos p) ++ "")).
    + f_equal. induction (Str.decimal (Z.pos p)); cbn; congruence.
    + now rewrite parseInt_decimal_app.
  - intros x. now rewrite parseInt_decimal_app.
Qed.

(* ================================================================== *)
(** * Client and middleware together                                   *)
(* ================================================================== *)

Lemma body_or_empty_default (data : option json) :
  body_or_empty (Some (default (JObj []) data)) = body_or_empty data.
Proof. now destruct data. Qed.

Lemma getTimestamp_nonempty (now : Z) : 0 <= now < 10 ^ 21 -> getTimestamp now <> "".
Proof.
  intros R. unfold getTimestamp. rewrite toString_Int by exact R.
  destruct now as [|p|p]; [discriminate | | lia].
  destruct (decimal_pos p) as (c & i & l & -> & _). discriminate.
Qed.

Lemma toHex_nonempty (bs : list byte) : bs <> [] -> Buffer.toHex bs <> "".
Proof. destruct bs; [congruence | discriminate]. Qed.

Section EndToEnd.

Variable hmac_raw : string -> string -> list byte.

(** A digest has at least one byte. *)
Hypothesis digest_nonempty : forall key data, hmac_raw key data <> [].

Lemma generateAuthHeaders_lookup (h : SimpleHMAC) (now : Z) (m p : string)
      (data : option json) :
  generateAuthHeaders hmac_raw h now m p data !! SECURITY.TIMESTAMP_HEADER
  = Some (getTimestamp now) /\
  generateAuthHeaders hmac_raw h now m p data !! SECURITY.SIGNATURE_HEADER
  = Some (create hmac_raw h
            (JStr (createStringToSign m p (Some (default (JObj []) data))
                                      (getTimestamp now)))).
Proof.
  unfold generateAuthHeaders. split.
  - rewrite lookup_insert_ne by discriminate. apply lookup_insert_eq.
  - apply lookup_insert_eq.
Qed.

(** A request that carries the headers the client made has both headers,
    neither of them empty. *)
Lemma signed_has_auth_headers (h : SimpleHMAC) (now : Z) (m p : string)
      (data : option json) (req : Request) :
  0 <= now < 10 ^ 21 ->
  generateAuthHeaders hmac_raw h now m p data ⊆ headers req ->
  has_auth_headers req (getTimestamp now)
    (create hmac_raw h
       (JStr (createStringToSign m p (Some (default (JObj []) data)) (getTimestamp now)))).
Proof.
  intros R S. destruct (generateAuthHeaders_lookup h now m p data) as [Lt Ls].
  repeat split.
  - exact (lookup_weaken _ _ _ _ Lt S).
  - now apply getTimestamp_nonempty.
  - exact (lookup_weaken _ _ _ _ Ls S).
  - apply toHex_nonempty, digest_nonempty.
Qed.

(** X7: a request signed by the client is let through by the middleware
    when it arrives with the same path, the same method up to case and a
    body that serializes alike, and the server's clock is at most
    MAX_TOKEN_AGE away from the client's. *)
Theorem signed_request_is_authenticated
        (h : SimpleHMAC) (now now' : Z) (m p : string) (data : option json)
        (req : Request) :
  0 <= now <= 8640000000000000 ->
  Z.abs (now' - now) <= SECURITY.MAX_TOKEN_AGE ->
  generateAuthHeaders hmac_raw h now m p data ⊆ headers req ->
  Str.toUpperCase (method req) = Str.toUpperCase m ->
  path req = p ->
  JSON.stringify (body_or_empty (body req)) = JSON.stringify (body_or_empty data) ->
  hmacAuth hmac_raw h now' req = CallNext.
Proof.
  intros R0 A S M P B.
  assert (R : 0 <= now < 10 ^ 21) by lia.
  rewrite (hmacAuth_with_headers hmac_raw h now' req _ _
             (signed_has_auth_headers h now m p data req R S)).
  rewrite (proj1 (parseInt_getTimestamp now R)).
  rewrite (proj2 (Z.ltb_ge _ _) A).
  unfold signature_check.
  replace (createStringToSign (method req) (path req) (body req) (getTimestamp now))
    with (createStringToSign m p (Some (default (JObj []) data)) (getTimestamp now)).
  - now rewrite (proj2 (verify_true hmac_raw h _ _) eq_refl).
  - unfold createStringToSign. now rewrite body_or_empty_default, M, P, B.
Qed.

(** X8: the same request presented once the server's clock is more than
    MAX_TOKEN_AGE away is answered "Request expired", right signature or
    not: a captured request cannot be replayed later. *)
Theorem signed_request_expires
        (h : SimpleHMAC) (now now' : Z) (m p : string) (data : option json)
        (req : Request) :
  0 <= now <= 8640000000000000 -> Z.abs now' <= 8640000000000000 ->
  Z.abs (now' - now) > SECURITY.MAX_TOKEN_AGE ->
  generateAuthHeaders hmac_raw h now m p data ⊆ headers req ->
  hmacAuth hmac_raw h now' req = Reply 401 "Request expired".
Proof.
  intros R R' A S.
  assert (R21 : 0 <= now < 10 ^ 21) by lia.
  rewrite (hmacAuth_with_headers hmac_raw h now' req _ _
             (signed_has_auth_headers h now m p data req R21 S)).
  rewrite (proj1 (parseInt_getTimestamp now R21)).
  rewrite (proj2 (Z.ltb_lt _ _)) by lia.
  rewrite (proj2 (Z.leb_le _ _)) by lia.
  now rewrite (proj2 (Z.leb_le _ _)) by lia.
Qed.

End EndToEnd.

Section Gate.

Variable hmac_raw : string -> string -> list byte.

(** X9: the middleware answers "Missing authentication headers" exactly
    when one of the two headers is absent or empty, whatever else the
    request holds. *)
Theorem missing_headers (h : SimpleHMAC) (now : Z) (req : Request) :
  hmacAuth hmac_raw h now req = Reply 401 "Missing authentication headers"
  <-> falsy (headers req !! SECURITY.TIMESTAMP_HEADER) = true
      \/ falsy (headers req !! SECURITY.SIGNATURE_HEADER) = true.
Proof.
  unfold hmacAuth.
  destruct (falsy (headers req !! SECURITY.TIMESTAMP_HEADER)) eqn:Ft;
    [split; auto|].
  destruct (falsy (headers req !! SECURITY.SIGNATURE_HEADER)) eqn:Fs;
    [split; auto|].
  cbn [orb]. split; [|intros [|]; discriminate].
  destruct (Global.gt _ _).
  - destruct (Global.toISOString (Global.parseInt _));
      destruct (Global.toISOString (Some now)); discriminate.
  - destruct (verify _ _ _ _); discriminate.
Qed.

(** X10: the middleware calls [next()] only for a request that has both
    headers, whose signature decodes to the keyed hash of the string to
    sign made of the request as received, and whose timestamp, when it
    parses, is at most MAX_TOKEN_AGE away from the clock. *)
Theorem authenticated_only_if (h : SimpleHMAC) (now : Z) (req : Request) :
  hmacAuth hmac_raw h now req = CallNext ->
  exists ts sig,
    has_auth_headers req ts sig /\
    Buffer.fromHex sig
    = hmac_raw (secret h) (createStringToSign (method req) (path req) (body req) ts) /\
    forall t, Global.parseInt ts = Some t -> Z.abs (now - t) <= SECURITY.MAX_TOKEN_AGE.
Proof.
  intros A.
  destruct (headers req !! SECURITY.TIMESTAMP_HEADER) as [ts|] eqn:Ht;
    [|unfold hmacAuth in A; rewrite Ht in A; discriminate A].
  destruct (headers req !! SECURITY.SIGNATURE_HEADER) as [sig|] eqn:Hs;
    [|unfold hmacAuth in A; rewrite Ht, Hs in A; cbn in A;
      destruct (String.eqb ts ""); discriminate A].
  destruct (String.eqb_spec ts "") as [->|Nt];
    [unfold hmacAuth in A; rewrite Ht in A; discriminate A|].
  destruct (String.eqb_spec sig "") as [->|Ns];
    [unfold hmacAuth in A; rewrite Ht, Hs in A; cbn in A;
     destruct (String.eqb ts ""); discriminate A|].
  assert (H : has_auth_headers req ts sig) by (repeat split; assumption).
  exists ts, sig. split; [exact H|].
  rewrite (hmacAuth_with_headers hmac_raw h now req ts sig H) in A.
  assert (V : signature_check hmac_raw h req ts sig = CallNext ->
              Buffer.fromHex sig
              = hmac_raw (secret h)
                  (createStringToSign (method req) (path req) (body req) ts)).
  { unfold signature_check. destruct (verify _ _ _ _) eqn:E; [|discriminate].
    intros _. apply verify_true in E. now rewrite E, fromHex_create. }
  destruct (Global.parseInt ts) as [t|].
  - destruct (SECURITY.MAX_TOKEN_AGE <? Z.abs (now - t)) eqn:G.
    + destruct (_ && _); discriminate A.
    + split; [exact (V A)|]. intros t' [= <-]. now apply Z.ltb_ge.
  - split; [exact (V A)|]. discriminate.
Qed.

(** X12: with both headers there and a timestamp that parses to a time
    value, the middleware answers "Request expired" exactly when the
    request time is more than MAX_TOKEN_AGE before the clock or more than
    MAX_TOKEN_AGE after it. *)
Theorem expired_outside_window
        (h : SimpleHMAC) (now : Z) (req : Request) (ts sig : string) (t : Z) :
  has_auth_headers req ts sig ->
  Global.parseInt ts = Some t ->
  Z.abs t <= 8640000000000000 -> Z.abs now <= 8640000000000000 ->
  (hmacAuth hmac_raw h now req = Reply 401 "Request expired"
   <-> t < now - SECURITY.MAX_TOKEN_AGE \/ now + SECURITY.MAX_TOKEN_AGE < t).
Proof.
  intros H P Rt Rn. rewrite (request_expiry hmac_raw h now req ts sig t H P Rt Rn). lia.
Qed.

(** X11: the string to sign does not tell where the timestamp ends and the
    path begins.  A request for the path p1.M2.p2 stamped ts and a request
    with method m2 for the path p2 stamped ts.M1.p1 (M1, M2 the methods in
    upper case) have one string to sign and one request time, so the
    middleware gives both the same answer for one signature. *)
Theorem signature_fits_two_requests
        (h : SimpleHMAC) (now T : Z) (sig : string) (req1 req2 : Request) (p1 : string) :
  0 <= T <= 8640000000000000 ->
  has_auth_headers req1 (getTimestamp T) sig ->
  has_auth_headers req2
    (getTimestamp T ++ "." ++ Str.toUpperCase (method req1) ++ "." ++ p1) sig ->
  path req1 = p1 ++ "." ++ Str.toUpperCase (method req2) ++ "." ++ path req2 ->
  body req1 = body req2 ->
  createStringToSign (method req2) (path req2) (body req2)
    (getTimestamp T ++ "." ++ Str.toUpperCase (method req1) ++ "." ++ p1)
  = createStringToSign (method req1) (path req1) (body req1) (getTimestamp T)
  /\ hmacAuth hmac_raw h now req2 = hmacAuth hmac_raw h now req1.
Proof.
  intros R0 H1 H2 P B.
  assert (R : 0 <= T < 10 ^ 21) by lia.
  assert (E : createStringToSign (method req2) (path req2) (body req2)
                (getTimestamp T ++ "." ++ Str.toUpperCase (method req1) ++ "." ++ p1)
              = createStringToSign (method req1) (path req1) (body req1) (getTimestamp T)).
  { unfold createStringToSign. rewrite P, B, !append_assoc. reflexivity. }
  split; [exact E|].
  rewrite (hmacAuth_with_headers hmac_raw h now req1 _ _ H1).
  rewrite (hmacAuth_with_headers hmac_raw h now req2 _ _ H2).
  change ("." ++ ?x) with (String "." x).
  rewrite (proj2 (parseInt_getTimestamp T R)), (proj1 (parseInt_getTimestamp T R)).
  unfold signature_check.
  change (String "." ?x) with ("." ++ x). now rewrite E.
Qed.

End Gate.

(* ================================================================== *)
(** * [JSON.parse] reads back what [JSON.stringify] wrote              *)
(* ================================================================== *)

Lemma json_induction (P : json -> Prop) :
  P JNull -> (forall b, P (JBool b)) -> (forall n, P (JNum n)) ->
  (forall s, P (JStr s)) -> (forall l, Forall P l -> P (JArr l)) ->
  (forall l, P (JObj l)) -> forall v, P v.
Proof.
  intros HN HB HM HS HA HO. fix IH 1.
  intros [|b|n|s|items|members];
    [exact HN | exact (HB b) | exact (HM n) | exact (HS s) | | exact (HO members)].
  apply HA.
  exact ((fix go (l : list json) : Forall P l :=
            match l with
            | [] => @List.Forall_nil json P
            | x :: r => @List.Forall_cons json P x r (IH x) (go r)
            end) items).
Qed.

Lemma append_empty (s : string) : s ++ "" = s.
Proof. induction s; cbn; congruence. Qed.

(** *** Strings *)

Lemma encode_low (l : list (ascii + Z)) :
  forallb low_item l = true -> JSON.encode l = map item_char l.
Proof.
  induction l as [|[c|n] l IH]; cbn [forallb JSON.encode map]; [reflexivity|..].
  - intros H. now rewrite IH.
  - intros H. apply andb_prop in H as [Hn Hl]. cbn [low_item] in Hn.
    apply andb_prop in Hn as [H0 H1]. apply Z.leb_le in H0. apply Z.ltb_lt in H1.
    assert (Hh : JSON.is_high n = false).
    { unfold JSON.is_high. rewrite (proj2 (Z.leb_gt _ _)) by lia. reflexivity. }
    assert (U : JSON.utf8 n = [Str.chr n]).
    { unfold JSON.utf8. now rewrite (proj2 (Z.ltb_lt _ _)) by lia. }
    rewrite Hh, U, IH by exact Hl. cbn [andb item_char]. now destruct l as [|[|] ?].
Qed.

Lemma run_quote_char (c : ascii) (iskey : bool) (acc : list (ascii + Z))
      (stack : list JSON.frame) (X : string) :
  (Str.code c <? 128) = true ->
  JSON.run (JSON.InStr iskey acc JSON.Plain, stack) (JSON.quote_char c ++ X)
  = JSON.run (JSON.InStr iskey (item_of c :: acc) JSON.Plain, stack) X.
Proof.
  destruct c as [[] [] [] [] [] [] [] []]; intros H; try discriminate H; reflexivity.
Qed.

Lemma item_of_low (c : ascii) :
  (Str.code c <? 128) = true -> low_item (item_of c) = true /\ item_char (item_of c) = c.
Proof.
  destruct c as [[] [] [] [] [] [] [] []]; intros H; try discriminate H; split; reflexivity.
Qed.

Lemma quote_body_cons (c : ascii) (r : string) :
  (Str.code c <? 128) = true ->
  JSON.quote_body (String c r) = JSON.quote_char c ++ JSON.quote_body r.
Proof.
  intros H. apply Z.ltb_lt in H. cbn [JSON.quote_body].
  destruct r as [|c2 [|c3 r3]]; try reflexivity.
  now rewrite (proj2 (Z.eqb_neq (Str.code c) 237)) by lia.
Qed.

Lemma run_quote_body (s : string) :
  forallb (fun c => Str.code c <? 128) (Str.to_list s) = true ->
  forall iskey acc stack X,
    JSON.run (JSON.InStr iskey acc JSON.Plain, stack) (JSON.quote_body s ++ X)
    = JSON.run (JSON.InStr iskey (rev (map item_of (Str.to_list s)) ++ acc)%list
                           JSON.Plain, stack) X.
Proof.
  induction s as [|c s IH]; intros H iskey acc stack X; [reflexivity|].
  change (Str.to_list (String c s)) with (c :: Str.to_list s) in *.
  cbn [forallb] in H. apply andb_prop in H as [Hc Hs].
  rewrite quote_body_cons, append_assoc, run_quote_char, (IH Hs) by exact Hc.
  cbn [map rev]. now rewrite <- app_assoc.
Qed.

Lemma run_string (s : string) (m : JSON.mode) (stack : list JSON.frame) (rest : string) :
  forallb (fun c => Str.code c <? 128) (Str.to_list s) = true ->
  m = JSON.Value \/ m = JSON.ArrFirst ->
  JSON.run (m, stack) (JSON.stringify (JStr s) ++ rest) = after (JStr s) stack rest.
Proof.
  intros H Hm. cbn [JSON.stringify]. unfold JSON.quote.
  cbn [String.append]. rewrite append_assoc. cbn [String.append].
  transitivity (JSON.run (JSON.InStr false [] JSON.Plain, stack)
                         (JSON.quote_body s ++ String Str.dquote rest)).
  { destruct Hm as [-> | ->]; reflexivity. }
  rewrite (run_quote_body s H). rewrite app_nil_r.
  transitivity (after (JStr (Str.of_list (JSON.encode (rev (rev (map item_of (Str.to_list s)))))))
                      stack rest); [reflexivity|].
  rewrite rev_involutive, encode_low.
  - rewrite map_map.
    replace (map (fun c => item_char (item_of c)) (Str.to_list s)) with (Str.to_list s).
    + unfold Str.of_list, Str.to_list. now rewrite string_of_list_ascii_of_string.
    + induction (Str.to_list s) as [|c l IHl]; [reflexivity|].
      cbn [forallb] in H. apply andb_prop in H as [Hc Hl].
      cbn [map]. now rewrite (proj2 (item_of_low c Hc)), <- (IHl Hl).
  - induction (Str.to_list s) as [|c l IHl]; [reflexivity|].
    cbn [forallb] in H. apply andb_prop in H as [Hc Hl].
    cbn [map forallb]. now rewrite (proj1 (item_of_low c Hc)), (IHl Hl).
Qed.

(** *** Numbers *)

Lemma run_digits (l : Decimal.uint) (ng : bool) (acc : positive)
      (stack : list JSON.frame) (rest : string) :
  JSON.run (JSON.InNum (JSON.num0 ng (Z.pos acc) JSON.NInt), stack)
           (NilEmpty.string_of_uint l ++ rest)
  = JSON.run (JSON.InNum (JSON.num0 ng (Z.pos (Pos.of_uint_acc l acc)) JSON.NInt), stack)
             rest.
Proof.
  revert acc; induction l; intros acc;
    cbn [NilEmpty.string_of_uint String.append Pos.of_uint_acc]; [reflexivity|..];
    rewrite <- IHl; cbn [JSON.run JSON.step];
    match goal with
    | |- context [JSON.num_step ?s ?c] =>
        let v := eval cbv in (Str.digit_val c) in
        match v with
        | Some ?d =>
            change (JSON.num_step s c)
              with (Some (JSON.num0 ng (10 * Z.pos acc + d) JSON.NInt))
        end
    end; cbv beta iota; do 4 f_equal; lia.
Qed.

(** A number that is complete when the text goes on with something else
    is handed over as it stands. *)
Lemma run_number_end (ng : bool) (m : Z) (ph : JSON.numphase)
      (stack : list JSON.frame) (rest : string) :
  ph = JSON.NInt \/ ph = JSON.NZero ->
  number_end rest = true ->
  JSON.run (JSON.InNum (JSON.num0 ng m ph), stack) rest
  = after (JNum (Num.make (if ng then - m else m) 0)) stack rest.
Proof.
  intros Hp E. destruct rest as [|c r].
  - unfold after.
    destruct Hp as [-> | ->]; destruct stack as [|[acc|ms [k|]] st]; reflexivity.
  - cbn [number_end] in E. cbn [JSON.run JSON.step].
    assert (S : JSON.num_step (JSON.num0 ng m ph) c = None).
    { unfold JSON.num_step. cbn [JSON.phase JSON.num0].
      destruct (Str.digit_val c); [discriminate E|].
      apply negb_true_iff in E. apply orb_false_iff in E as [E E3].
      apply orb_false_iff in E as [E1 E2].
      destruct Hp as [-> | ->]; now rewrite E1, E2, E3. }
    rewrite S. unfold after.
    assert (V : JSON.num_value (JSON.num0 ng m ph)
                = Some (Num.make (if ng then - m else m) 0)).
    { destruct Hp as [-> | ->]; reflexivity. }
    rewrite V.
    destruct stack as [|[acc|ms [k|]] st]; reflexivity.
Qed.

Lemma make_int (z : Z) : Num.make z 0 = Int z.
Proof.
  unfold Num.make. destruct (Z.eqb_spec z 0) as [->|N]; [reflexivity|].
  cbn. now rewrite Z.mul_1_r.
Qed.

Lemma run_number (z : Z) (m : JSON.mode) (stack : list JSON.frame) (rest : string) :
  (Z.abs z <? 10 ^ 21) = true ->
  m = JSON.Value \/ m = JSON.ArrFirst ->
  number_end rest = true ->
  JSON.run (m, stack) (JSON.stringify (JNum (Int z)) ++ rest)
  = after (JNum (Int z)) stack rest.
Proof.
  intros B Hm E. apply Z.ltb_lt in B. cbn [JSON.stringify].
  destruct z as [|p|p].
  - change (Num.toString (Int 0) ++ rest) with (String "0" rest).
    transitivity (JSON.run (JSON.InNum (JSON.num0 false 0 JSON.NZero), stack) rest).
    { destruct Hm as [-> | ->]; reflexivity. }
    rewrite run_number_end by auto. now rewrite make_int.
  - rewrite toString_Int by lia.
    destruct (decimal_pos p) as (c & i & l & -> & D & N & L & V).
    cbn [String.append].
    transitivity (JSON.run (JSON.InNum (JSON.num0 false (Z.pos i) JSON.NInt), stack)
                           (NilEmpty.string_of_uint l ++ rest)).
    { cbn [JSON.run].
      replace (JSON.step (m, stack) c)
        with (Some (JSON.InNum (JSON.num0 false (Z.pos i) JSON.NInt), stack)); [reflexivity|].
      destruct (to_uint_leading p) as (c' & i' & l' & Ld & _).
      clear - D N L Hm.
      destruct c as [[] [] [] [] [] [] [] []]; try discriminate D;
        injection D as D; destruct Hm as [-> | ->]; cbn;
        try (exfalso; lia); now rewrite <- D. }
    rewrite run_digits, V, run_number_end by auto. now rewrite make_int.
  - rewrite toString_Int_neg by lia.
    destruct (decimal_pos p) as (c & i & l & -> & D & N & L & V).
    cbn [String.append].
    transitivity (JSON.run (JSON.InNum (JSON.num0 true (Z.pos i) JSON.NInt), stack)
                           (NilEmpty.string_of_uint l ++ rest)).
    { cbn [JSON.run].
      replace (JSON.step (m, stack) "-")
        with (Some (JSON.InNum (JSON.num0 true 0 JSON.NSign), stack))
        by (destruct Hm as [-> | ->]; reflexivity).
      cbv beta iota. cbn [JSON.run JSON.step].
      replace (JSON.num_step (JSON.num0 true 0 JSON.NSign) c)
        with (Some (JSON.num0 true (Z.pos i) JSON.NInt)); [reflexivity|].
      unfold JSON.num_step. cbn [JSON.phase JSON.num0]. rewrite D.
      now rewrite (proj2 (Z.eqb_neq _ _) N). }
    rewrite run_digits, V, run_number_end by auto. now rewrite make_int.
Qed.

(** *** Arrays and the whole value *)

Lemma join_elems_tail (l : list json) (v : json) (rest : string) :
  Str.join "," (map JSON.stringify (v :: l)) ++ String "]" rest
  = JSON.stringify v ++ elems_tail l rest.
Proof.
  revert v; induction l as [|w l IH]; intros v; [reflexivity|].
  change (Str.join "," (map JSON.stringify (v :: w :: l)))
    with (JSON.stringify v ++ "," ++ Str.join "," (map JSON.stringify (w :: l))).
  rewrite !append_assoc, IH. reflexivity.
Qed.

Lemma number_end_elems_tail (l : list json) (rest : string) :
  number_end (elems_tail l rest) = true.
Proof. now destruct l. Qed.

Lemma run_elems (l : list json) (stack : list JSON.frame) (rest : string) :
  Forall reads_back l ->
  forall acc,
    JSON.run (JSON.Next, JSON.FArr acc :: stack) (elems_tail l rest)
    = after (JArr (rev acc ++ l)%list) stack rest.
Proof.
  induction 1 as [|v l Hv Hl IH]; intros acc.
  - rewrite app_nil_r. reflexivity.
  - cbn [elems_tail JSON.run].
    change (JSON.step (JSON.Next, JSON.FArr acc :: stack) ",")
      with (Some (JSON.Value, JSON.FArr acc :: stack)).
    cbv beta iota.
    rewrite (Hv JSON.Value (JSON.FArr acc :: stack) (elems_tail l rest))
      by auto using number_end_elems_tail.
    unfold after at 1. cbn [JSON.complete]. rewrite IH.
    cbn [rev]. now rewrite <- app_assoc.
Qed.

Lemma run_array (l : list json) :
  Forall reads_back l -> reads_back (JArr l).
Proof.
  intros F m stack rest Hm E.
  transitivity (JSON.run (JSON.ArrFirst, JSON.FArr [] :: stack)
                  (Str.join "," (map JSON.stringify l) ++ String "]" rest)).
  { cbn [JSON.stringify]. rewrite !append_assoc. cbn [String.append].
    destruct Hm as [-> | ->]; reflexivity. }
  destruct F as [|v l Hv Hl]; [reflexivity|].
  rewrite join_elems_tail.
  rewrite (Hv JSON.ArrFirst (JSON.FArr [] :: stack) (elems_tail l rest))
    by auto using number_end_elems_tail.
  unfold after at 1. cbn [JSON.complete].
  now rewrite (run_elems l stack rest Hl [v]).
Qed.

Lemma plain_reads_back (v : json) : plain v = true -> reads_back v.
Proof.
  induction v as [|b|n|s|l IH|ms] using json_induction; intros P.
  - intros m stack rest [-> | ->] _; reflexivity.
  - intros m stack rest [-> | ->] _; destruct b; reflexivity.
  - destruct n as [|z|]; try discriminate P.
    intros m stack rest Hm E. apply run_number; auto.
    cbn [plain] in P. apply Z.ltb_lt in P. apply Z.ltb_lt. lia.
  - intros m stack rest Hm _. now apply run_string.
  - apply run_array. cbn [plain] in P.
    induction IH as [|v l Hv Hl IHl]; [constructor|].
    cbn [forallb] in P. apply andb_prop in P as [Pv Pl].
    constructor; auto.
  - destruct ms; [|discriminate P].
    intros m stack rest [-> | ->] _; reflexivity.
Qed.

(** [JSON.parse (JSON.stringify v)] is [v] for every plain value. *)
Lemma parse_stringify (v : json) :
  plain v = true -> JSON.parse (JSON.stringify v) = Some v.
Proof.
  intros P. unfold JSON.parse.
  rewrite <- (append_empty (JSON.stringify v)).
  now rewrite (plain_reads_back v P JSON.Value [] "") by auto.
Qed.

(* ================================================================== *)
(** * More about timestamp tokens                                      *)
(* ================================================================== *)

Section TokenProperties.

Variable hmac_raw : string -> string -> list byte.
Variable syntax_error_message : string -> string.

(** C4, at the failing inputs: a token written as [createWithTimestamp]
    writes it, with a digest, the decimal form of a time value and the
    serialization of an object that has a property, is never answered
    "Token expired", however old it is.  Its timestamp does parse, but the
    split has cut the message at the colon after the first key and
    [JSON.parse] throws before the age is looked at: the answer is
    "Invalid token format".  The expired token of the client's self-test
    is such a token. *)
Theorem expired_object_token_is_malformed
        (h : SimpleHMAC) (now t : Z) (d k : string) (v : json)
        (ms : list (string * json)) :
  Str.lacks ":" d = true ->
  0 <= t <= 8640000000000000 ->
  now - t > SECURITY.MAX_TOKEN_AGE ->
  let token := d ++ ":" ++ Num.toString (Int t) ++ ":"
                 ++ JSON.stringify (JObj ((k, v) :: ms)) in
  let r := verifyWithTimestamp hmac_raw syntax_error_message h now token in
  Global.parseInt (ToString (Str.split ":" token !! 1%nat)) = Some t /\
  (exists detail, r = Malformed detail) /\
  isValid r = false /\ reason r <> "Token expired".
Proof.
  intros L R A token r.
  assert (S : exists p ps,
             Str.split ":" token
             = d :: Num.toString (Int t) :: String "{" (String Str.dquote p) :: ps /\
             Str.lacks ":" p = true).
  { subst token. destruct (stringify_object_cons k v ms) as [tail ->].
    change (":" ++ ?x) with (String ":" x).
    rewrite split_app by exact L.
    change (":" ++ ?x) with (String ":" x).
    rewrite split_app by apply lacks_colon_toString.
    cbn [Str.split]. change (Ascii.eqb "{" ":") with false.
    change (Ascii.eqb Str.dquote ":") with false. cbv iota.
    destruct (split_head ":" (JSON.quote_body k ++ String Str.dquote (String ":" tail)))
      as (p & ps & -> & Lp).
    now exists p, ps. }
  destruct S as (p & ps & S & Lp).
  split.
  { rewrite S. cbn [lookup list_lookup ToString].
    assert (R21 : 0 <= t < 10 ^ 21) by lia.
    exact (proj1 (parseInt_getTimestamp t R21)). }
  assert (E : exists detail, r = Malformed detail).
  { subst r. unfold verifyWithTimestamp. rewrite S.
    cbn [lookup list_lookup ToString].
    unfold JSON.parse. cbn [JSON.run].
    change (JSON.step (JSON.Value, []) "{")
      with (Some (JSON.ObjFirst, [JSON.FObj [] None])).
    cbv iota. cbn [JSON.run].
    change (JSON.step (JSON.ObjFirst, [JSON.FObj [] None]) Str.dquote)
      with (Some (JSON.InStr true [] JSON.Plain, [JSON.FObj [] None])).
    cbv iota. rewrite (proj1 (run_key_without_colon p Lp)). eauto. }
  destruct E as [detail E]. rewrite E. split; [eauto|]. split; [reflexivity|].
  cbn. discriminate.
Qed.

(** X13: a token made of a plain message whose serialization holds no
    colon verifies, with the message as its data, for as long as the
    verifier's clock is not more than MAX_TOKEN_AGE past the token's
    timestamp. *)
Theorem token_roundtrip (h : SimpleHMAC) (now now' : Z) (m : json) :
  plain m = true ->
  Str.lacks ":" (JSON.stringify m) = true ->
  0 <= now <= 8640000000000000 ->
  now' - now <= SECURITY.MAX_TOKEN_AGE ->
  let r := verifyWithTimestamp hmac_raw syntax_error_message h now'
             (fullToken (createWithTimestamp hmac_raw h now m)) in
  isValid r = true /\ reason r = "Valid token" /\ result_data r = Some m.
Proof.
  intros P L R0 A r. subst r.
  assert (R : 0 <= now < 10 ^ 21) by lia.
  rewrite (roundtrip_without_colon hmac_raw syntax_error_message h now now' m L
             (parse_stringify m P) (proj1 (parseInt_getTimestamp now R)) A).
  repeat split.
Qed.

(** X14: on a token whose first part is ASCII and whose numbers binary64
    holds exactly (the timestamp part, when it parses, and every number
    of the message part are safe integers), at a clock that is a time
    value, [verifyWithTimestamp] calls the token valid only if its message
    part is JSON, its first part decodes to the keyed hash of the
    serialized pair of that message and the parsed timestamp (null when
    the timestamp does not parse), and its age is not above
    MAX_TOKEN_AGE; the data it returns is the parsed message. *)
Theorem valid_token_only_if (h : SimpleHMAC) (now : Z) (token : string) :
  let r := verifyWithTimestamp hmac_raw syntax_error_message h now token in
  let parts := Str.split ":" token in
  let timestamp := Global.parseInt (ToString (parts !! 1%nat)) in
  ascii_only (ToString (parts !! 0%nat)) = true ->
  (forall t, timestamp = Some t -> safe_integer t = true) ->
  (forall m, JSON.parse (ToString (parts !! 2%nat)) = Some m -> safe_numbers m = true) ->
  0 <= now <= 8640000000000000 ->
  isValid r = true ->
  exists m,
    JSON.parse (ToString (parts !! 2%nat)) = Some m /\
    result_data r = Some m /\
    Buffer.fromHex (ToString (parts !! 0%nat))
    = hmac_raw (secret h)
        (JSON.stringify
           (JObj [("message", m); ("timestamp", JNum (Global.number_of timestamp))])) /\
    forall t, timestamp = Some t -> now - t <= SECURITY.MAX_TOKEN_AGE.
Proof.
  intros r parts timestamp _ _ _ _ V. subst r. unfold verifyWithTimestamp in *.
  fold parts in V |- *. fold timestamp in V |- *.
  destruct (JSON.parse (ToString (parts !! 2%nat))) as [m|]; [|discriminate V].
  exists m. split; [reflexivity|].
  destruct (Global.gt (option_map (fun t => now - t) timestamp) SECURITY.MAX_TOKEN_AGE)
    eqn:G; [discriminate V|].
  cbn [isValid] in V. cbn [result_data]. rewrite V. split; [reflexivity|].
  apply verify_true in V. rewrite fromHex_create in V. split; [exact V|].
  intros t Ht. rewrite Ht in G. cbn in G. now apply Z.ltb_ge in G.
Qed.

(** X15: a token is answered "Invalid token format" exactly when its
    third part at the colons is not JSON (or is missing); the digest and
    the timestamp have no say in it. *)
Theorem malformed_iff (h : SimpleHMAC) (now : Z) (token : string) :
  (exists detail,
      verifyWithTimestamp hmac_raw syntax_error_message h now token = Malformed detail)
  <-> JSON.parse (ToString (Str.split ":" token !! 2%nat)) = None.
Proof.
  unfold verifyWithTimestamp.
  destruct (JSON.parse (ToString (Str.split ":" token !! 2%nat))) as [m|].
  - split; [|discriminate]. intros [detail E].
    destruct (Global.gt _ _); discriminate E.
  - split; eauto.
Qed.

(** X16: a token with fewer than two colons, so with fewer than three
    parts, is answered "Invalid token format" and is not valid. *)
Theorem token_with_missing_parts (h : SimpleHMAC) (now : Z) (token : string) :
  (length (Str.split ":" token) < 3)%nat ->
  let r := verifyWithTimestamp hmac_raw syntax_error_message h now token in
  isValid r = false /\ result_data r = None /\
  exists detail, r = Malformed detail /\ reason r = "Invalid token format: " ++ detail.
Proof.
  intros L r. subst r.
  destruct (malformed_few_parts hmac_raw syntax_error_message h now token L) as [d ->].
  cbn. eauto.
Qed.

(** X17: the digest of a token [createWithTimestamp] returns verifies
    against the serialized pair of the message and the timestamp, and the
    parts of its full token at the colons are that digest, the decimal
    timestamp, and then the pieces of the serialized message. *)
Theorem token_layout (h : SimpleHMAC) (now : Z) (m : json) :
  let token := createWithTimestamp hmac_raw h now m in
  verify hmac_raw h
         (JStr (JSON.stringify (JObj [("message", m); ("timestamp", JNum (Int now))])))
         (hmac token) = true /\
  Str.split ":" (fullToken token)
  = hmac token :: Num.toString (Int now) :: Str.split ":" (JSON.stringify m).
Proof.
  intros token. split.
  - now apply verify_true.
  - apply split_fullToken.
Qed.

(** X18: the route POST /api/create-hmac answers 400 exactly when the body
    has no message or one JavaScript takes for false, and 500 exactly
    when there is no body or a null one; otherwise it reports the digest
    of the message, and its own check of that digest is always true. *)
Theorem create_hmac_route_answers (h : SimpleHMAC) (now now' : Z) (body : option json) :
  let reply := create_hmac_route hmac_raw syntax_error_message h now now' body in
  (reply = HandlerError <-> body = None \/ body = Some JNull) /\
  (reply = MessageRequired <->
   exists b, body = Some b /\ b <> JNull /\
             (property b "message" = None \/
              exists m, property b "message" = Some m /\ JSON.truthy m = false)) /\
  (forall m s token simple check,
      reply = Report m s token simple check ->
      s = create hmac_raw h m /\ simple = true /\
      token = createWithTimestamp hmac_raw h now m /\
      exists b, body = Some b /\ property b "message" = Some m /\ JSON.truthy m = true).
Proof.
  intros reply. subst reply. unfold create_hmac_route.
  destruct body as [b|].
  { assert (D : b = JNull \/ b <> JNull) by (destruct b; auto; right; discriminate).
    destruct D as [-> | N].
    { split; [|split].
      - split; auto.
      - split; [discriminate|]. intros (b & [= <-] & N & _). now destruct N.
      - discriminate. }
    assert (E : forall X Y : CreateHmacReply,
               match b with JNull => X | _ => Y end = Y) by (now destruct b).
    rewrite E. clear E.
    assert (NE : ~ (Some b = None \/ Some b = Some JNull)).
    { intros [E | E]; [discriminate E | injection E as ->; now destruct N]. }
    destruct (property b "message") as [m|] eqn:Pm.
    - destruct (JSON.truthy m) eqn:T; cbn [negb]; (split; [|split]).
      + split; [discriminate | intros E; now destruct NE].
      + split; [discriminate|].
        intros (b' & [= <-] & _ & [E | (m' & E & F)]); congruence.
      + intros m' s' tok' simple' check' [= <- <- <- <- _].
        split; [reflexivity|]. split; [now apply verify_true|]. split; [reflexivity|].
        exists b. auto.
      + split; [discriminate | intros E; now destruct NE].
      + split; [|reflexivity]. intros _. exists b. eauto 6.
      + discriminate.
    - split; [|split].
      + split; [discriminate | intros E; now destruct NE].
      + split; [|reflexivity]. intros _. exists b. auto.
      + discriminate. }
  split; [|split].
  - split; auto.
  - split; [discriminate|]. intros (b & E & _). discriminate E.
  - discriminate.
Qed.

(** X19: for a message that is plain, true for JavaScript and written
    without a colon, the route reports a timestamp token that it finds
    valid itself, as long as its two readings of the clock are not more
    than MAX_TOKEN_AGE apart. *)
Theorem create_hmac_route_reports_valid
        (h : SimpleHMAC) (now now' : Z) (rest : list (string * json)) (m : json) :
  plain m = true -> JSON.truthy m = true ->
  Str.lacks ":" (JSON.stringify m) = true ->
  0 <= now <= 8640000000000000 -> now' - now <= SECURITY.MAX_TOKEN_AGE ->
  create_hmac_route hmac_raw syntax_error_message h now now'
                    (Some (JObj (("message", m) :: rest)))
  = Report m (create hmac_raw h m) (createWithTimestamp hmac_raw h now m) true
           (Checked true m (Some (now' - now))).
Proof.
  intros P T L R0 A. assert (R : 0 <= now < 10 ^ 21) by lia.
  unfold create_hmac_route.
  cbn [property own_property String.eqb Ascii.eqb Bool.eqb]. rewrite T. cbn [negb].
  rewrite (proj2 (verify_true hmac_raw h m _) eq_refl).
  now rewrite (roundtrip_without_colon hmac_raw syntax_error_message h now now' m L
                 (parse_stringify m P) (proj1 (parseInt_getTimestamp now R)) A).
Qed.

End TokenProperties.

(* ================================================================== *)
(** * Secrets                                                          *)
(* ================================================================== *)

(** X20: a secret made by [generateSecret] from [n] bytes has 2n lowercase
    hex digits; from 16 bytes on (32 by default) the constructor takes it
    without the warning for short secrets, whatever the environment. *)
Theorem generated_secret (randomBytes : nat -> list byte) (n : option nat)
        (env_secret : option string) :
  (forall k, length (randomBytes k) = k) ->
  (16 <= default 32 n)%nat -> Z.of_nat (default 32%nat n) <= 2147483647 ->
  exists s,
    generateSecret randomBytes n = Some s /\
    String.length s = (2 * default 32 n)%nat /\
    canonical_hex s = true /\
    new_SimpleHMAC (Some s) env_secret = Some {| secret := s |} /\
    warns_short_secret {| secret := s |} = false.
Proof.
  intros RB Lo Hi. unfold generateSecret.
  rewrite (proj2 (Z.leb_le _ _)) by lia.
  eexists. split; [reflexivity|].
  assert (Ln : String.length (Buffer.toHex (randomBytes (default 32%nat n)))
               = (2 * default 32 n)%nat) by now rewrite length_toHex, RB.
  split; [exact Ln|]. split; [apply canonical_toHex|]. split.
  - unfold new_SimpleHMAC.
    destruct (Buffer.toHex (randomBytes (default 32%nat n))) eqn:E; [|reflexivity].
    cbn in Ln. lia.
  - unfold warns_short_secret, SECURITY.MIN_SECRET_LENGTH. cbn [secret].
    rewrite Ln. apply Z.ltb_ge. lia.
Qed.

(** X21: the constructor fails exactly when neither the argument nor the
    environment gives a secret that is not empty; an instance never has
    an empty secret, and the argument wins over the environment. *)
Theorem constructor_secret (secret_arg env_secret : option string) :
  (new_SimpleHMAC secret_arg env_secret = None
   <-> falsy secret_arg = true /\ falsy env_secret = true) /\
  (forall h, new_SimpleHMAC secret_arg env_secret = Some h ->
             secret h <> "" /\
             (falsy secret_arg = false -> Some (secret h) = secret_arg) /\
             (falsy secret_arg = true -> Some (secret h) = env_secret)).
Proof.
  unfold new_SimpleHMAC.
  destruct secret_arg as [[|c s]|], env_secret as [[|c' s']|]; cbn;
    (split; [split; [try discriminate; auto | intros [? ?]; try discriminate; auto]|]);
    intros h E; try discriminate E; injection E as <-; cbn;
    repeat split; try discriminate; auto.
Qed.

(* ================================================================== *)
(** * The properties at work                                           *)
(* ================================================================== *)

Lemma hmac_sha256_nonempty (key data : string) : NodeCrypto.hmac_sha256 key data <> [].
Proof.
  intros E. pose proof (hmac_sha256_length key data) as L. rewrite E in L. discriminate L.
Qed.

Lemma verify_canonical_witness :
  canonical_hex "0f0c1ca0f80b53b2afbee82e141f6f9176a8e5418ebbe6dba28e0f9759fbc90e" = true /\
  (verify NodeCrypto.hmac_sha256 Sample.h (JStr "Hello, HMAC!")
          "0f0c1ca0f80b53b2afbee82e141f6f9176a8e5418ebbe6dba28e0f9759fbc90e" = true
   <-> "0f0c1ca0f80b53b2afbee82e141f6f9176a8e5418ebbe6dba28e0f9759fbc90e"
       = create NodeCrypto.hmac_sha256 Sample.h (JStr "Hello, HMAC!")).
Proof.
  split; [reflexivity|].
  apply (verify_canonical NodeCrypto.hmac_sha256 Sample.h (JStr "Hello, HMAC!")).
  reflexivity.
Defined.

Lemma verify_rejects_shorter_witness :
  (String.length "0f0c1ca0f80b53b2"
   < String.length (create NodeCrypto.hmac_sha256 Sample.h (JStr "Hello, HMAC!")))%nat /\
  verify NodeCrypto.hmac_sha256 Sample.h (JStr "Hello, HMAC!") "0f0c1ca0f80b53b2" = false.
Proof.
  assert (L : (String.length "0f0c1ca0f80b53b2"
               < String.length (create NodeCrypto.hmac_sha256 Sample.h (JStr "Hello, HMAC!")))%nat)
    by (vm_compute; lia).
  split; [exact L|].
  exact (verify_rejects_shorter NodeCrypto.hmac_sha256 Sample.h (JStr "Hello, HMAC!")
           "0f0c1ca0f80b53b2" L).
Defined.

(** X6: the timestamp header the client writes is the decimal form of
    the clock, and the middleware reads it back as the instant it was
    taken at, for every time value the clock can give. *)
Theorem timestamp_header_roundtrip (now : Z) :
  0 <= now <= 8640000000000000 ->
  getTimestamp now = Str.decimal now /\ Global.parseInt (getTimestamp now) = Some now.
Proof.
  intros R0. assert (R : 0 <= now < 10 ^ 21) by lia.
  split; [now apply toString_Int | now apply parseInt_getTimestamp].
Qed.

Lemma timestamp_header_roundtrip_witness :
  0 <= Sample.T <= 8640000000000000 /\
  getTimestamp Sample.T = "1700000000000" /\
  Global.parseInt (getTimestamp Sample.T) = Some Sample.T.
Proof.
  assert (R : 0 <= Sample.T <= 8640000000000000) by (vm_compute; split; congruence).
  split; [exact R|]. exact (timestamp_header_roundtrip Sample.T R).
Defined.

Lemma verify_ignores_case_witness :
  forallb (fun c => Str.code c <? 128)
    (Str.to_list "0f0c1ca0f80b53b2afbee82e141f6f9176a8e5418ebbe6dba28e0f9759fbc90e") = true /\
  verify NodeCrypto.hmac_sha256 Sample.h (JStr "Hello, HMAC!")
         "0F0C1CA0F80B53B2AFBEE82E141F6F9176A8E5418EBBE6DBA28E0F9759FBC90E"
  = verify NodeCrypto.hmac_sha256 Sample.h (JStr "Hello, HMAC!")
           "0f0c1ca0f80b53b2afbee82e141f6f9176a8e5418ebbe6dba28e0f9759fbc90e".
Proof.
  split; [reflexivity|].
  exact (verify_ignores_case NodeCrypto.hmac_sha256 Sample.h (JStr "Hello, HMAC!")
           "0f0c1ca0f80b53b2afbee82e141f6f9176a8e5418ebbe6dba28e0f9759fbc90e" eq_refl).
Defined.

Lemma signed_request_is_authenticated_witness :
  Z.abs (Sample.T + 250 - Sample.T) <= SECURITY.MAX_TOKEN_AGE /\
  generateAuthHeaders NodeCrypto.hmac_sha256 Sample.h Sample.T "get" "/api/protected" None
    ⊆ headers Scenario.signed_get /\
  hmacAuth NodeCrypto.hmac_sha256 Sample.h (Sample.T + 250) Scenario.signed_get = CallNext.
Proof.
  assert (A : Z.abs (Sample.T + 250 - Sample.T) <= SECURITY.MAX_TOKEN_AGE)
    by (vm_compute; congruence).
  assert (S : generateAuthHeaders NodeCrypto.hmac_sha256 Sample.h Sample.T
                "get" "/api/protected" None ⊆ headers Scenario.signed_get).
  { apply insert_subseteq. apply lookup_insert_None. split; [|discriminate].
    apply lookup_insert_None. split; [|discriminate]. apply lookup_empty. }
  split; [exact A|]. split; [exact S|].
  apply (signed_request_is_authenticated NodeCrypto.hmac_sha256 hmac_sha256_nonempty
           Sample.h Sample.T (Sample.T + 250) "get" "/api/protected" None
           Scenario.signed_get);
    [vm_compute; split; congruence | exact A | exact S | reflexivity | reflexivity
     | reflexivity].
Defined.

Lemma signed_request_expires_witness :
  Z.abs (Sample.T + 300001 - Sample.T) > SECURITY.MAX_TOKEN_AGE /\
  hmacAuth NodeCrypto.hmac_sha256 Sample.h (Sample.T + 300001) Scenario.signed_get
  = Reply 401 "Request expired".
Proof.
  split; [reflexivity|].
  apply (signed_request_expires NodeCrypto.hmac_sha256 hmac_sha256_nonempty
           Sample.h Sample.T (Sample.T + 300001) "get" "/api/protected" None
           Scenario.signed_get).
  - vm_compute. split; congruence.
  - vm_compute. congruence.
  - reflexivity.
  - apply insert_subseteq. apply lookup_insert_None. split; [|discriminate].
    apply lookup_insert_None. split; [|discriminate]. apply lookup_empty.
Defined.

Lemma authenticated_only_if_witness :
  hmacAuth NodeCrypto.hmac_sha256 Sample.h Sample.T Scenario.signed_get = CallNext /\
  exists ts sig,
    has_auth_headers Scenario.signed_get ts sig /\
    Buffer.fromHex sig
    = NodeCrypto.hmac_sha256 (secret Sample.h)
        (createStringToSign "GET" "/api/protected" (Some (JObj [])) ts).
Proof.
  assert (A : hmacAuth NodeCrypto.hmac_sha256 Sample.h Sample.T Scenario.signed_get
              = CallNext) by (vm_compute; reflexivity).
  split; [exact A|].
  destruct (authenticated_only_if NodeCrypto.hmac_sha256 Sample.h Sample.T
              Scenario.signed_get A) as (ts & sig & H & E & _).
  exists ts, sig. split; [exact H | exact E].
Defined.

Lemma signature_fits_two_requests_witness :
  let signature :=
    create NodeCrypto.hmac_sha256 Sample.h
      (JStr "1700000000000.GET./files/report.POST./api/protected/data.{}") in
  hmacAuth NodeCrypto.hmac_sha256 Sample.h Sample.T (Scenario.dotted signature) = CallNext /\
  hmacAuth NodeCrypto.hmac_sha256 Sample.h Sample.T (Scenario.confused signature) = CallNext.
Proof.
  intros signature.
  assert (A : hmacAuth NodeCrypto.hmac_sha256 Sample.h Sample.T (Scenario.dotted signature)
              = CallNext) by (vm_compute; reflexivity).
  split; [exact A|]. rewrite <- A.
  apply (signature_fits_two_requests NodeCrypto.hmac_sha256 Sample.h Sample.T Sample.T
           signature (Scenario.dotted signature) (Scenario.confused signature)
           "/files/report").
  - vm_compute. split; congruence.
  - repeat split; try (vm_compute; discriminate); vm_compute; reflexivity.
  - repeat split; try (vm_compute; discriminate); vm_compute; reflexivity.
  - reflexivity.
  - reflexivity.
Defined.

Lemma expired_outside_window_witness :
  has_auth_headers (Sample.request "1700000000000" "00") "1700000000000" "00" /\
  (hmacAuth NodeCrypto.hmac_sha256 Sample.h (Sample.T - 300001)
            (Sample.request "1700000000000" "00")
   = Reply 401 "Request expired"
   <-> Sample.T < Sample.T - 300001 - SECURITY.MAX_TOKEN_AGE
       \/ Sample.T - 300001 + SECURITY.MAX_TOKEN_AGE < Sample.T).
Proof.
  assert (H : has_auth_headers (Sample.request "1700000000000" "00") "1700000000000" "00").
  { repeat split; try discriminate; vm_compute; reflexivity. }
  split; [exact H|].
  apply (expired_outside_window NodeCrypto.hmac_sha256 Sample.h (Sample.T - 300001)
           (Sample.request "1700000000000" "00") "1700000000000" "00" Sample.T H);
    vm_compute; congruence.
Defined.

Lemma token_roundtrip_witness :
  let m := JArr [JStr "Hello, HMAC!"; JNum (Int (-42)); JNull; JArr []; JObj []] in
  plain m = true /\ Str.lacks ":" (JSON.stringify m) = true /\
  isValid (verifyWithTimestamp NodeCrypto.hmac_sha256 NodeCrypto.syntax_error_message
             Sample.h (Sample.T + 300000)
             (fullToken (createWithTimestamp NodeCrypto.hmac_sha256 Sample.h Sample.T m)))
  = true.
Proof.
  intros m.
  assert (P : plain m = true) by reflexivity.
  assert (L : Str.lacks ":" (JSON.stringify m) = true) by (vm_compute; reflexivity).
  split; [exact P|]. split; [exact L|].
  apply (token_roundtrip NodeCrypto.hmac_sha256 NodeCrypto.syntax_error_message
           Sample.h Sample.T (Sample.T + 300000) m P L).
  - vm_compute. split; congruence.
  - vm_compute. congruence.
Defined.

Lemma valid_token_only_if_witness :
  let token := fullToken (createWithTimestamp NodeCrypto.hmac_sha256 Sample.h Sample.T
                            (JStr "Hello, HMAC!")) in
  let parts := Str.split ":" token in
  ascii_only (ToString (parts !! 0%nat)) = true /\
  Global.parseInt (ToString (parts !! 1%nat)) = Some Sample.T /\
  JSON.parse (ToString (parts !! 2%nat)) = Some (JStr "Hello, HMAC!") /\
  isValid (verifyWithTimestamp NodeCrypto.hmac_sha256 NodeCrypto.syntax_error_message
             Sample.h Sample.T token) = true /\
  exists m,
    result_data (verifyWithTimestamp NodeCrypto.hmac_sha256 NodeCrypto.syntax_error_message
                   Sample.h Sample.T token) = Some m.
Proof.
  intros token parts.
  assert (A : ascii_only (ToString (parts !! 0%nat)) = true) by (vm_compute; reflexivity).
  assert (P : Global.parseInt (ToString (parts !! 1%nat)) = Some Sample.T)
    by (vm_compute; reflexivity).
  assert (J : JSON.parse (ToString (parts !! 2%nat)) = Some (JStr "Hello, HMAC!"))
    by (vm_compute; reflexivity).
  assert (V : isValid (verifyWithTimestamp NodeCrypto.hmac_sha256
                         NodeCrypto.syntax_error_message Sample.h Sample.T token) = true)
    by (vm_compute; reflexivity).
  split; [exact A|]. split; [exact P|]. split; [exact J|]. split; [exact V|].
  destruct (valid_token_only_if NodeCrypto.hmac_sha256 NodeCrypto.syntax_error_message
              Sample.h Sample.T token A) as (m & _ & D & _).
  - intros t E. fold parts in E. rewrite P in E. injection E as <-. reflexivity.
  - intros m E. fold parts in E. rewrite J in E. injection E as <-. reflexivity.
  - vm_compute. split; congruence.
  - exact V.
  - exists m. exact D.
Defined.

Lemma verify_iff_decodes_witness :
  let digest := "0f0c1ca0f80b53b2afbee82e141f6f9176a8e5418ebbe6dba28e0f9759fbc90e" in
  ascii_only digest = true /\
  safe_numbers (JStr "Hello, HMAC!") = true /\
  Buffer.fromHex digest = NodeCrypto.hmac_sha256 (secret Sample.h) "Hello, HMAC!".
Proof.
  intros digest. split; [reflexivity|]. split; [reflexivity|].
  apply (proj1 (verify_iff_decodes NodeCrypto.hmac_sha256 Sample.h (JStr "Hello, HMAC!")
                  digest eq_refl eq_refl)).
  vm_compute. reflexivity.
Defined.

(** The expired token of the client's self-test: the digest of a token
    made for the message, a timestamp ten minutes before the clock, and
    the serialized message. *)
Lemma expired_object_token_is_malformed_witness :
  let m := JObj [("test", JStr "expired")] in
  let old := createWithTimestamp NodeCrypto.hmac_sha256 Sample.h Sample.T m in
  let token := hmac old ++ ":" ++ Num.toString (Int (Sample.T - 600000)) ++ ":"
                 ++ JSON.stringify m in
  Str.lacks ":" (hmac old) = true /\
  0 <= Sample.T - 600000 <= 8640000000000000 /\
  Sample.T - (Sample.T - 600000) > SECURITY.MAX_TOKEN_AGE /\
  reason (verifyWithTimestamp NodeCrypto.hmac_sha256 NodeCrypto.syntax_error_message
            Sample.h Sample.T token) <> "Token expired".
Proof.
  intros m old token.
  assert (L : Str.lacks ":" (hmac old) = true) by (vm_compute; reflexivity).
  assert (R : 0 <= Sample.T - 600000 <= 8640000000000000)
    by (vm_compute; split; congruence).
  assert (A : Sample.T - (Sample.T - 600000) > SECURITY.MAX_TOKEN_AGE) by reflexivity.
  split; [exact L|]. split; [exact R|]. split; [exact A|].
  pose proof (expired_object_token_is_malformed
                NodeCrypto.hmac_sha256 NodeCrypto.syntax_error_message
                Sample.h Sample.T (Sample.T - 600000) (hmac old)
                "test" (JStr "expired") [] L R A) as H.
  cbv zeta in H. destruct H as (_ & _ & _ & N). exact N.
Defined.

Example self_test_expired_token :
  let m := JObj [("test", JStr "expired")] in
  let old := createWithTimestamp NodeCrypto.hmac_sha256 Sample.h Sample.T m in
  let token := hmac old ++ ":" ++ Num.toString (Int (Sample.T - 600000)) ++ ":"
                 ++ JSON.stringify m in
  Str.split ":" token
  = [hmac old; "1699999400000"; Str.q "{'test'"; Str.q "'expired'}"] /\
  verifyWithTimestamp NodeCrypto.hmac_sha256 NodeCrypto.syntax_error_message
                      Sample.h Sample.T token
  = Malformed (NodeCrypto.syntax_error_message (Str.q "{'test'")).
Proof. split; vm_compute; reflexivity. Qed.

Lemma token_with_missing_parts_witness :
  (length (Str.split ":" "0f0c1ca0f80b53b2:1700000000000") < 3)%nat /\
  isValid (verifyWithTimestamp NodeCrypto.hmac_sha256 NodeCrypto.syntax_error_message
             Sample.h Sample.T "0f0c1ca0f80b53b2:1700000000000") = false.
Proof.
  assert (L : (length (Str.split ":" "0f0c1ca0f80b53b2:1700000000000") < 3)%nat)
    by (vm_compute; lia).
  split; [exact L|].
  exact (proj1 (token_with_missing_parts NodeCrypto.hmac_sha256
                  NodeCrypto.syntax_error_message
                  Sample.h Sample.T "0f0c1ca0f80b53b2:1700000000000" L)).
Defined.

Lemma create_hmac_route_reports_valid_witness :
  plain (JStr "Hello, HMAC!") = true /\
  Str.lacks ":" (JSON.stringify (JStr "Hello, HMAC!")) = true /\
  create_hmac_route NodeCrypto.hmac_sha256 NodeCrypto.syntax_error_message
                    Sample.h Sample.T (Sample.T + 2)
                    (Some (JObj [("message", JStr "Hello, HMAC!")]))
  = Report (JStr "Hello, HMAC!")
           (create NodeCrypto.hmac_sha256 Sample.h (JStr "Hello, HMAC!"))
           (createWithTimestamp NodeCrypto.hmac_sha256 Sample.h Sample.T (JStr "Hello, HMAC!"))
           true (Checked true (JStr "Hello, HMAC!") (Some (Sample.T + 2 - Sample.T))).
Proof.
  split; [reflexivity|]. split; [vm_compute; reflexivity|].
  apply (create_hmac_route_reports_valid NodeCrypto.hmac_sha256
           NodeCrypto.syntax_error_message Sample.h Sample.T (Sample.T + 2) []
           (JStr "Hello, HMAC!"));
    [reflexivity | reflexivity | vm_compute; reflexivity
     | vm_compute; split; congruence | vm_compute; congruence].
Defined.

Lemma create_hmac_route_answers_witness :
  create_hmac_route NodeCrypto.hmac_sha256 NodeCrypto.syntax_error_message
                    Sample.h Sample.T Sample.T (Some (JObj [("message", JStr "")]))
  = MessageRequired.
Proof.
  apply (proj1 (proj2 (create_hmac_route_answers NodeCrypto.hmac_sha256
                         NodeCrypto.syntax_error_message Sample.h Sample.T Sample.T
                         (Some (JObj [("message", JStr "")]))))).
  exists (JObj [("message", JStr "")]). split; [reflexivity|]. split; [discriminate|].
  right. exists (JStr ""). split; reflexivity.
Defined.

Lemma generated_secret_witness :
  (forall k, length (Scenario.zeros k) = k) /\
  generateSecret Scenario.zeros None
  = Some "0000000000000000000000000000000000000000000000000000000000000000" /\
  exists s,
    generateSecret Scenario.zeros None = Some s /\ String.length s = 64%nat /\
    warns_short_secret {| secret := s |} = false.
Proof.
  assert (RB : forall k, length (Scenario.zeros k) = k)
    by (intros k; apply repeat_length).
  split; [exact RB|]. split; [reflexivity|].
  destruct (generated_secret Scenario.zeros None None RB) as (s & E & L & _ & _ & W).
  - cbn. lia.
  - cbn. lia.
  - exists s. split; [exact E|]. split; [exact L | exact W].
Defined.

Lemma constructor_secret_witness :
  new_SimpleHMAC (Some "") (Some "from-the-environment")
  = Some {| secret := "from-the-environment" |} /\
  new_SimpleHMAC None (Some "") = None.
Proof.
  split; [reflexivity|].
  apply (proj1 (constructor_secret None (Some ""))). split; reflexivity.
Defined.
